(** * molsakat: the poster editor's drag controller and poster state

    A shallow embedding of [components/PosterCanvas.tsx] (the pointer-driven
    drag controller) and of the state owner in [App.tsx] (the poster state and
    every [setData] / [setSelectedId] call site).

    - JavaScript numbers are IEEE-754 binary64 ([float]); the handlers are
      written over the interface [JsNumber] of the operations they use, so
      what is proved of them for any arithmetic holds in binary64.
    - JavaScript objects are records whose fields may be absent; the element
      table is a finite map from keys to such objects.
    - A handler is a function from the component state of the render it closes
      over to the state after its setters, the calls it made on its event and
      on the host, and how it completed (normally, or by a [TypeError]).
    - Every event is handled by the closures of the latest render: React has
      applied the state updates of an event before the next one is handled.
    - [data.elements[k]] is the lookup of a key of the element table: for
      a name that is not a key it finds nothing. In the browser a name that
      every object inherits from [Object.prototype] ([toString],
      [constructor], ...) finds the inherited member there, which is no
      element. The table renders no element under such a name, so no
      pointer-down makes it the dragged identifier and no layer button
      selects it: where a statement would differ for such a name, it takes
      the dragged or selected identifier to be a key of the table, or the
      state to be one the editor reaches from its initial one.
      ([updateElement] spreads what it finds; an inherited member has no own
      enumerable property, so for it as for an absent key the spread
      contributes nothing.) *)

From Stdlib Require Import ZArith Floats Bool List.
From stdpp Require Import base option strings gmap.

Open Scope string_scope.

(* ===================================================================== *)
(** ** Numbers *)
(* ===================================================================== *)

(** The arithmetic the sources use on [number]: [+], [-], [/], integer
    literals, and the value [undefined] converts to when it meets [+]. *)
Class JsNumber (num : Type) := {
  num_add : num -> num -> num;
  num_sub : num -> num -> num;
  num_div : num -> num -> num;
  num_of_Z : Z -> num;
  num_nan : num
}.

Declare Scope js_scope.
Delimit Scope js_scope with js.
Infix "+" := num_add : js_scope.
Infix "-" := num_sub : js_scope.
Infix "/" := num_div : js_scope.

(** IEEE-754 binary64, round to nearest even: the JavaScript [number]. *)
#[export] Instance float_JsNumber : JsNumber float := {
  num_add := PrimFloat.add;
  num_sub := PrimFloat.sub;
  num_div := PrimFloat.div;
  num_of_Z z := SF2Prim (binary_normalize prec emax z 0 false);
  num_nan := PrimFloat.nan
}.

(* ===================================================================== *)
(** ** Truthiness and property keys *)
(* ===================================================================== *)

(** [!s] for [s : string | null | undefined]: only a non-empty string is
    truthy. *)
Definition truthy (s : option string) : bool :=
  match s with
  | Some v => negb (String.eqb v "")
  | None => false
  end.

(** The property key a value of type [string | undefined] names when it is
    used as a computed key. *)
Definition propertyKey (s : option string) : string := default "undefined" s.

(* ===================================================================== *)
(** ** Poster model *)
(* ===================================================================== *)

(** Modelled from the spec: the declarations of [TextElement] and
    [PosterState] ([types.ts] is not among the sources); the fields are those
    of section 3 of the specification and of [INITIAL_STATE]. A field is
    [None] when the object has no such property. *)
Module TextElement.
Record t {num : Type} : Type := mk {
  id : option string;
  label : option string;
  text : option string;
  x : option num;
  y : option num;
  fontSize : option num;
  fontFamily : option string;
  color : option string;
  width : option num
}.
Arguments t : clear implicits.
Arguments mk {num}.

(** [{}] *)
Definition empty {num} : t num :=
  mk None None None None None None None None None.

Definition later {A} (a b : option A) : option A :=
  match b with
  | Some v => Some v
  | None => a
  end.

(** [{ ...a, ...b }] *)
Definition spread {num} (a b : t num) : t num :=
  mk (later (id a) (id b)) (later (label a) (label b))
     (later (text a) (text b)) (later (x a) (x b)) (later (y a) (y b))
     (later (fontSize a) (fontSize b)) (later (fontFamily a) (fontFamily b))
     (later (color a) (color b)) (later (width a) (width b)).

(** [{ ...o }] for [o] possibly [undefined]: nothing is copied then. *)
Definition ofLookup {num} (o : option (t num)) : t num := default empty o.

(** The object literals the callers of [updateElement] pass. *)
Definition position {num} (x y : num) : t num :=
  mk None None None (Some x) (Some y) None None None None.
Definition onlyText {num} (s : option string) : t num :=
  mk None None s None None None None None None.
Definition onlyFontFamily {num} (f : string) : t num :=
  mk None None None None None None (Some f) None None.
Definition onlyFontSize {num} (n : num) : t num :=
  mk None None None None None (Some n) None None None.
Definition onlyColor {num} (c : string) : t num :=
  mk None None None None None None None (Some c) None.
End TextElement.

Module PosterState.
Record t {num : Type} : Type := mk {
  backgroundImage : option string;
  elements : gmap string (TextElement.t num)
}.
Arguments t : clear implicits.
Arguments mk {num}.
End PosterState.

Section Editor.
Context {num : Type} {arith : JsNumber num}.

Local Open Scope js_scope.

Abbreviation element := (TextElement.t num).
Abbreviation poster := (PosterState.t num).

(** [ToNumber] of a numeric field that may be [undefined]. *)
Definition toNumber (v : option num) : num := default num_nan v.

(* ------------------------------------------------------------------- *)
(** *** App.tsx: initial state *)

Definition date0 : element :=
  TextElement.mk (Some "date") (Some "التاريخ") (Some "الخميس 07 أوت 2025")
    (Some (num_of_Z 400)) (Some (num_of_Z 120)) (Some (num_of_Z 48))
    (Some "Cairo") (Some "#004d40") None.

Definition honorific0 : element :=
  TextElement.mk (Some "honorific") (Some "اللقب العلمي") (Some "الدكتور")
    (Some (num_of_Z 550)) (Some (num_of_Z 220)) (Some (num_of_Z 36))
    (Some "Amiri") (Some "#004d40") None.

Definition name0 : element :=
  TextElement.mk (Some "name") (Some "اسم المحاضر")
    (Some "عبد الرحمان بن إبراهيم نجار")
    (Some (num_of_Z 400)) (Some (num_of_Z 270)) (Some (num_of_Z 60))
    (Some "Amiri") (Some "#1a1a1a") None.

Definition title0 : element :=
  TextElement.mk (Some "title") (Some "عنوان المحاضرة")
    (Some "من التماسك الاجتماعي إلى التقدم الحضاري
قراءة في مفهوم رأس المال الاجتماعي")
    (Some (num_of_Z 165)) (Some (num_of_Z 400)) (Some (num_of_Z 72))
    (Some "Lalezar") (Some "#b71c1c") (Some (num_of_Z 950)).

Definition INITIAL_STATE : poster :=
  PosterState.mk None
    (<["date" := date0]> (<["honorific" := honorific0]>
      (<["name" := name0]> (<["title" := title0]> ∅)))).

(** The keys of [INITIAL_STATE.elements]. *)
Definition initialKeys : gset string :=
  {["date"; "honorific"; "name"; "title"]}.

(* ------------------------------------------------------------------- *)
(** *** App.tsx: the state updaters *)

(** [updateElement(id, updates)], as the updater it passes to [setData]. *)
Definition updateElement (id : string) (updates : element) (prev : poster) : poster :=
  PosterState.mk (PosterState.backgroundImage prev)
    (<[id := TextElement.spread
               (TextElement.ofLookup (PosterState.elements prev !! id)) updates]>
       (PosterState.elements prev)).

Definition handlePositionUpdate (id : string) (x y : num) (prev : poster) : poster :=
  updateElement id (TextElement.position x y) prev.

(** [reader.onload] of [handleImageUpload]; [result] is
    [event.target?.result]. *)
Definition handleImageUpload (result : option string) (prev : poster) : poster :=
  if truthy result
  then PosterState.mk result (PosterState.elements prev)
  else prev.

(** The background's delete button, rendered when [data.backgroundImage]
    is truthy. *)
Definition removeBackground (prev : poster) : poster :=
  if truthy (PosterState.backgroundImage prev)
  then PosterState.mk None (PosterState.elements prev)
  else prev.

(** [fresh || prev.elements[key].text]; [None] is the [TypeError] of
    reading [text] of [undefined]. *)
Definition enhancedText (fresh : option string) (old : option element)
  : option (option string) :=
  if truthy fresh then Some fresh
  else TextElement.text <$> old.

(** The updater [handleAiEnhancement] passes to [setData] once the service
    has answered with [{ formattedDate, enhancedTitle }]. *)
Definition applyEnhancement (formattedDate enhancedTitle : option string)
    (prev : poster) : option poster :=
  let els := PosterState.elements prev in
  dateText ← enhancedText formattedDate (els !! "date");
  titleText ← enhancedText enhancedTitle (els !! "title");
  Some (PosterState.mk (PosterState.backgroundImage prev)
          (<["title" := TextElement.spread (TextElement.ofLookup (els !! "title"))
                          (TextElement.onlyText titleText)]>
             (<["date" := TextElement.spread (TextElement.ofLookup (els !! "date"))
                            (TextElement.onlyText dateText)]> els))).

(* ------------------------------------------------------------------- *)
(** *** PosterCanvas.tsx: the drag controller *)

(** [{ x, y }] of [dragOffset]. *)
Record Offset : Type := mkOffset { offsetX : num; offsetY : num }.

(** The three [useState] cells of the component. *)
Record DragState : Type := mkDrag {
  isDragging : bool;
  dragOffset : Offset;
  draggedId : option string
}.

Record PointerEvent : Type := mkPointer { clientX : num; clientY : num }.

(** What [getBoundingClientRect()] returns, as far as it is read. *)
Record DOMRect : Type := mkRect { rectWidth : num; rectHeight : num }.

(** Calls a handler makes on its event and on the host's callbacks. *)
Inductive Effect : Type :=
| PreventDefault
| StopPropagation
| OnSelect (id : string)
| OnUpdatePosition (id : string) (x y : num).

Inductive Completion : Type := Normal | TypeError.

Record Outcome : Type := mkOutcome {
  next : DragState;
  effects : list Effect;
  completion : Completion
}.

Definition initialDrag : DragState :=
  mkDrag false (mkOffset (num_of_Z 0) (num_of_Z 0)) None.

(** [!containerRef.current] is false exactly when the surface is mounted. *)
Definition mounted (containerRef : option DOMRect) : bool :=
  match containerRef with
  | Some _ => true
  | None => false
  end.

Definition handlePointerDown (e : PointerEvent) (elementId : string)
    (currentX currentY : option num) (st : DragState) : Outcome :=
  mkOutcome
    (mkDrag true (mkOffset (clientX e) (clientY e)) (Some elementId))
    [PreventDefault; StopPropagation; OnSelect elementId]
    Normal.

Definition handlePointerMove (data : poster) (containerRef : option DOMRect)
    (e : PointerEvent) (st : DragState) : Outcome :=
  if negb (isDragging st) || negb (truthy (draggedId st))
     || negb (mounted containerRef)
  then mkOutcome st [] Normal
  else
    match draggedId st, containerRef with
    | Some dragged, Some rect =>
        let scale := rectWidth rect / num_of_Z 1280 in
        let deltaX := (clientX e - offsetX (dragOffset st)) / scale in
        let deltaY := (clientY e - offsetY (dragOffset st)) / scale in
        match PosterState.elements data !! dragged with
        | None =>
            (* [currentEl.x] of [undefined] *)
            mkOutcome st [PreventDefault] TypeError
        | Some currentEl =>
            mkOutcome
              (mkDrag (isDragging st) (mkOffset (clientX e) (clientY e))
                      (draggedId st))
              [PreventDefault;
               OnUpdatePosition dragged
                 (toNumber (TextElement.x currentEl) + deltaX)
                 (toNumber (TextElement.y currentEl) + deltaY)]
              Normal
        end
    | _, _ => mkOutcome st [] Normal
    end.

Definition handlePointerUp (st : DragState) : Outcome :=
  mkOutcome (mkDrag false (dragOffset st) None) [] Normal.

(** The listener the effect installs on [window] for [pointerup]. *)
Definition handleGlobalUp (st : DragState) : Outcome :=
  if isDragging st
  then mkOutcome (mkDrag false (dragOffset st) None) [] Normal
  else mkOutcome st [] Normal.

(* ------------------------------------------------------------------- *)
(** *** App.tsx: the owner of the poster state *)

(** The [useState] cells of [App] the canvas reads or drives ([loading]
    and [aiLoading] only disable two buttons). *)
Record AppState : Type := mkApp {
  data : poster;
  selectedId : option string
}.

Definition initialApp : AppState := mkApp INITIAL_STATE (Some "title").

(** [<PosterCanvas onSelect={setSelectedId}
                   onUpdatePosition={handlePositionUpdate} />] *)
Definition hostCall (app : AppState) (eff : Effect) : AppState :=
  match eff with
  | OnSelect i => mkApp (data app) (Some i)
  | OnUpdatePosition i x y =>
      mkApp (handlePositionUpdate i x y (data app)) (selectedId app)
  | PreventDefault | StopPropagation => app
  end.

(** [selectedId ? data.elements[selectedId] : null] *)
Definition selectedElement (app : AppState) : option element :=
  if truthy (selectedId app)
  then selectedId app ≫= λ k, PosterState.elements (data app) !! k
  else None.

(** A control of the properties editor, which is rendered only when
    [selectedElement] is truthy: [updateElement(selectedElement.id, updates)]. *)
Definition editSelected (updates : element) (app : AppState) : AppState :=
  match selectedElement app with
  | Some el =>
      mkApp (updateElement (propertyKey (TextElement.id el)) updates (data app))
            (selectedId app)
  | None => app
  end.

(* ------------------------------------------------------------------- *)
(** *** The editor as a transition system *)

Record System : Type := mkSystem {
  app : AppState;
  canvas : DragState
}.

Definition initialSystem : System := mkSystem initialApp initialDrag.

Inductive Event : Type :=
(* the canvas *)
| PointerDownOn (key : string) (e : PointerEvent)
| PointerMove (e : PointerEvent) (containerRef : option DOMRect)
| WindowPointerUp
(* the side bar *)
| SelectLayer (key : string)
| EditText (value : string)
| EditFontFamily (value : string)
| EditFontSize (value : num)
| EditColor (color : string)
| ImageLoaded (result : option string)
| RemoveBackground
(* the header *)
| Enhanced (formattedDate enhancedTitle : option string)
| DownloadClicked
| DownloadSettled (currentSelection : option string).

(** The host serves the calls of a handler in the order they were made;
    the component keeps the state its setters left. *)
Definition afterHandler (s : System) (o : Outcome) : System :=
  mkSystem (foldl hostCall (app s) (effects o)) (next o).

Definition withApp (s : System) (a : AppState) : System :=
  mkSystem a (canvas s).

(** One event, handled by the closures of the latest render. [None]: an
    updater threw while React applied it. *)
Definition step (s : System) (ev : Event) : option System :=
  let a := app s in
  match ev with
  | PointerDownOn key e =>
      (* [renderTextElement] runs for the entries of [data.elements] only *)
      match PosterState.elements (data a) !! key with
      | Some el =>
          Some (afterHandler s
                  (handlePointerDown e key (TextElement.x el) (TextElement.y el)
                                     (canvas s)))
      | None => Some s
      end
  | PointerMove e containerRef =>
      Some (afterHandler s (handlePointerMove (data a) containerRef e (canvas s)))
  | WindowPointerUp => Some (afterHandler s (handleGlobalUp (canvas s)))
  | SelectLayer key =>
      (* one button per value of [data.elements]: [setSelectedId(el.id)] *)
      match PosterState.elements (data a) !! key with
      | Some el => Some (withApp s (mkApp (data a) (TextElement.id el)))
      | None => Some s
      end
  | EditText value =>
      Some (withApp s (editSelected (TextElement.onlyText (Some value)) a))
  | EditFontFamily value =>
      Some (withApp s (editSelected (TextElement.onlyFontFamily value) a))
  | EditFontSize value =>
      Some (withApp s (editSelected (TextElement.onlyFontSize value) a))
  | EditColor color =>
      Some (withApp s (editSelected (TextElement.onlyColor color) a))
  | ImageLoaded result =>
      Some (withApp s (mkApp (handleImageUpload result (data a)) (selectedId a)))
  | RemoveBackground =>
      Some (withApp s (mkApp (removeBackground (data a)) (selectedId a)))
  | Enhanced formattedDate enhancedTitle =>
      d ← applyEnhancement formattedDate enhancedTitle (data a);
      Some (withApp s (mkApp d (selectedId a)))
  | DownloadClicked => Some (withApp s (mkApp (data a) None))
  | DownloadSettled currentSelection =>
      Some (withApp s (mkApp (data a) currentSelection))
  end.

Fixpoint run (s : System) (evs : list Event) : option System :=
  match evs with
  | [] => Some s
  | ev :: rest => s' ← step s ev; run s' rest
  end.

(** The stored position of the element under [key]. *)
Definition positionOf (key : string) (s : System) : option (option num * option num) :=
  (λ el, (TextElement.x el, TextElement.y el))
    <$> PosterState.elements (data (app s)) !! key.

(* ------------------------------------------------------------------- *)
(** *** Vocabulary of the statements *)

(** [{ ...el, x, y }] *)
Definition moveTo (el : element) (x y : num) : element :=
  TextElement.spread el (TextElement.position x y).

(** The editor [s] in the middle of a drag of [key]: the element [el]
    stored under [key] has been put at [(x, y)] and the anchor is [anchor]. *)
Definition relocated (s : System) (key : string) (el : element) (x y : num)
    (anchor : Offset) : System :=
  mkSystem
    (mkApp (PosterState.mk (PosterState.backgroundImage (data (app s)))
              (<[key := moveTo el x y]> (PosterState.elements (data (app s)))))
           (selectedId (app s)))
    (mkDrag true anchor (Some key)).

(** A drag in progress: where the element is stored and where the anchor
    is. *)
Record Track : Type := mkTrack {
  trackX : num;
  trackY : num;
  trackAnchor : Offset
}.

(** One move as the specification describes it, over a surface of bounding
    box [rect]: the logical delta is added to the stored position, the
    pointer becomes the anchor. *)
Definition advance (rect : DOMRect) (t : Track) (e : PointerEvent) : Track :=
  let scale := rectWidth rect / num_of_Z 1280 in
  mkTrack (trackX t + (clientX e - offsetX (trackAnchor t)) / scale)
          (trackY t + (clientY e - offsetY (trackAnchor t)) / scale)
          (mkOffset (clientX e) (clientY e)).

(** The moves of a gesture, one after the other. *)
Definition accumulate (rect : DOMRect) (t : Track) (es : list PointerEvent) : Track :=
  foldl (advance rect) t es.

(** The pointer-move events of a gesture over a surface whose bounding box
    stays [rect]. *)
Definition movesOver (rect : DOMRect) (es : list PointerEvent) : list Event :=
  (λ e, PointerMove e (Some rect)) <$> es.

(** The events through which the canvas component is driven. *)
Definition canvasEvent (ev : Event) : bool :=
  match ev with
  | PointerDownOn _ _ | PointerMove _ _ | WindowPointerUp => true
  | _ => false
  end.

(** The outcomes the four handlers of the controller can have, given the
    poster [d] of the props and the component state [st]. *)
Inductive handlerOutcome (d : poster) (st : DragState) : Outcome → Prop :=
| outcome_down e key currentX currentY :
    handlerOutcome d st (handlePointerDown e key currentX currentY st)
| outcome_move e containerRef :
    handlerOutcome d st (handlePointerMove d containerRef e st)
| outcome_up : handlerOutcome d st (handlePointerUp st)
| outcome_global_up : handlerOutcome d st (handleGlobalUp st).

(** Whether a handler asked the host to change the selection. *)
Definition isSelection (eff : Effect) : bool :=
  match eff with
  | OnSelect _ => true
  | _ => false
  end.

(** The element table has the four initial keys, and every element carries
    its key as its [id]. *)
Definition wellKeyed (d : poster) : Prop :=
  dom (PosterState.elements d) = initialKeys
  ∧ ∀ k el, PosterState.elements d !! k = Some el → TextElement.id el = Some k.

End Editor.

Arguments Offset : clear implicits.
Arguments DragState : clear implicits.
Arguments PointerEvent : clear implicits.
Arguments DOMRect : clear implicits.
Arguments Effect : clear implicits.
Arguments Outcome : clear implicits.
Arguments AppState : clear implicits.
Arguments System : clear implicits.
Arguments Event : clear implicits.
Arguments Track : clear implicits.

(* ===================================================================== *)
(** ** Scenarios, in binary64 *)
(* ===================================================================== *)

(** The surface rendered at its native size, at half of it, and collapsed
    to no width. *)
Definition nativeRect : DOMRect float := mkRect 1280%float 720%float.
Definition halfRect : DOMRect float := mkRect 640%float 360%float.
Definition collapsedRect : DOMRect float := mkRect 0%float 0%float.

Definition pressAt100 : PointerEvent float := mkPointer 100%float 100%float.
Definition moveAt110 : PointerEvent float := mkPointer 110%float 115%float.

(** The initial poster right after a pointer-down on [date] at (100,100). *)
Definition pressedOnDate : System float :=
  mkSystem (mkApp INITIAL_STATE (Some "date"))
           (mkDrag true (mkOffset 100%float 100%float) (Some "date")).

(** [{ x: 1, y: 2 }], and a key [INITIAL_STATE] does not have. *)
Definition strayUpdate : TextElement.t float :=
  TextElement.position 1%float 2%float.
Definition strayKey : string := "subtitle".

(** The surface at the medium breakpoint's scale of 0.6, and three
    pointer positions one device pixel apart to the right of (100,100). *)
Definition mediumRect : DOMRect float := mkRect 768%float 432%float.
Definition moveAt101 : PointerEvent float := mkPointer 101%float 100%float.
Definition moveAt102 : PointerEvent float := mkPointer 102%float 100%float.
Definition moveAt103 : PointerEvent float := mkPointer 103%float 100%float.

(** A surface rendered [2^-1000] pixels wide: the scale is positive and
    finite. *)
Definition tinyRect : DOMRect float := mkRect 0x1p-1000%float 0x1p-1000%float.

(** A session that goes through every kind of event the editor has. *)
Definition session : list (Event float) :=
  [PointerDownOn "date" pressAt100;
   PointerMove moveAt110 (Some halfRect);
   WindowPointerUp;
   EditText "x";
   EditColor "#000000";
   Enhanced None (Some "t");
   SelectLayer "name";
   EditFontFamily "Tajawal";
   EditFontSize 20%float;
   ImageLoaded (Some "data:image/png;base64,");
   RemoveBackground;
   DownloadClicked;
   DownloadSettled (Some "name")].

(** An infinity or NaN, on the specification side of binary64. *)
Definition SFnonfinite (f : spec_float) : bool :=
  match f with
  | S754_nan | S754_infinity _ => true
  | S754_zero _ | S754_finite _ _ _ => false
  end.

(** The move of the scenarios with the pointer held still horizontally. *)
Definition moveAt100 : PointerEvent float := mkPointer 100%float 115%float.

(* ===================================================================== *)
(** ** Fonts and colours *)
(* ===================================================================== *)

(** The double-quote character of a CSS family name. *)
Definition dquote : string :=
  String (Ascii.Ascii false true false false false true false false) EmptyString.

Definition quoted (s : string) : string := dquote +:+ s +:+ dquote.

(** PosterCanvas.tsx, [getFontFamily]: a [switch] with a default. *)
Definition getFontFamily (font : string) : string :=
  if String.eqb font "Amiri" then quoted "Amiri" +:+ ", serif"
  else if String.eqb font "Aref Ruqaa" then quoted "Aref Ruqaa" +:+ ", serif"
  else if String.eqb font "Lalezar" then quoted "Lalezar" +:+ ", cursive"
  else if String.eqb font "Tajawal" then quoted "Tajawal" +:+ ", sans-serif"
  else quoted "Cairo" +:+ ", sans-serif".

(** App.tsx, [FONTS]: the options of the font selector, [(label, value)]. *)
Definition FONTS : list (string * string) :=
  [("القاهرة (Cairo)", "Cairo");
   ("أميري (Amiri)", "Amiri");
   ("عارف رقعة (Aref Ruqaa)", "Aref Ruqaa");
   ("لاليزار (Lalezar)", "Lalezar");
   ("تجوال (Tajawal)", "Tajawal")].

(** App.tsx, [COLORS]: the swatches of the colour picker. *)
Definition COLORS : list string :=
  ["#000000"; "#1a1a1a"; "#ffffff";
   "#b71c1c"; "#c62828"; "#8B1E1E";
   "#004d40"; "#00695c"; "#00796b";
   "#1e3a8a"; "#1e40af"; "#3730a3"].

(** The values the font selector can send. *)
Definition fontValues : list string := FONTS.*2.

(* ===================================================================== *)
(** ** Vocabulary of the wider statements *)
(* ===================================================================== *)

Section Wider.
Context {num : Type} {arith : JsNumber num}.

(** The object a control or a handler hands to [updateElement] on an
    event. *)
Inductive requested : Event num → TextElement.t num → Prop :=
| requested_position e containerRef x y :
    requested (PointerMove e containerRef) (TextElement.position x y)
| requested_text value :
    requested (EditText value) (TextElement.onlyText (Some value))
| requested_fontFamily value :
    requested (EditFontFamily value) (TextElement.onlyFontFamily value)
| requested_fontSize value :
    requested (EditFontSize value) (TextElement.onlyFontSize value)
| requested_color color :
    requested (EditColor color) (TextElement.onlyColor color).

(** The dragging flag and the dragged identifier agree, and the identifier
    names one of the four elements. *)
Definition dragCoherent (s : System num) : Prop :=
  match isDragging (canvas s), draggedId (canvas s) with
  | true, Some k => k ∈ initialKeys
  | false, None => True
  | _, _ => False
  end.

(** An element that still has what [INITIAL_STATE] gave it: the same [id],
    [label] and [width], and a value for every other field. *)
Definition sameShape (el0 el : TextElement.t num) : Prop :=
  TextElement.id el = TextElement.id el0
  ∧ TextElement.label el = TextElement.label el0
  ∧ TextElement.width el = TextElement.width el0
  ∧ is_Some (TextElement.text el)
  ∧ is_Some (TextElement.x el)
  ∧ is_Some (TextElement.y el)
  ∧ is_Some (TextElement.fontSize el)
  ∧ is_Some (TextElement.fontFamily el)
  ∧ is_Some (TextElement.color el).

Definition shaped (d : PosterState.t num) : Prop :=
  ∀ k el0, PosterState.elements (INITIAL_STATE (num := num)) !! k = Some el0 →
    ∃ el, PosterState.elements d !! k = Some el ∧ sameShape el0 el.

(** Every element has a font of [FONTS] and a colour of [COLORS]. *)
Definition styled (d : PosterState.t num) : Prop :=
  ∀ k el, PosterState.elements d !! k = Some el →
    ∃ f c, TextElement.fontFamily el = Some f ∧ f ∈ fontValues
           ∧ TextElement.color el = Some c ∧ c ∈ COLORS.

(** The events the rendered controls can send: the font selector sends a
    value of [FONTS], the colour picker a colour of [COLORS]. *)
Definition offered (ev : Event num) : Prop :=
  match ev with
  | EditFontFamily value => value ∈ fontValues
  | EditColor color => color ∈ COLORS
  | _ => True
  end.

(** Pointer moves and releases. *)
Definition pointerNoise (ev : Event num) : bool :=
  match ev with
  | PointerMove _ _ | WindowPointerUp => true
  | _ => false
  end.

End Wider.

(** The element under [k] has an abscissa that is not a finite number (an
    infinity, NaN, or no value at all). *)
Definition lost (k : string) (d : PosterState.t float) : Prop :=
  ∃ el, PosterState.elements d !! k = Some el
        ∧ is_finite (toNumber (TextElement.x el)) = false.

(** The drag on [date] after a move over the collapsed surface. *)
Definition strandedDate : System float :=
  afterHandler pressedOnDate
    (handlePointerMove INITIAL_STATE (Some collapsedRect) moveAt110
       (canvas pressedOnDate)).

(* ===================================================================== *)
(** ** App.tsx: the two asynchronous actions of the header *)
(* ===================================================================== *)

Section Header.
Context {num : Type} {arith : JsNumber num}.

(** The editor with the two busy flags of [App] and the operations that are
    under way: the calls of [enhancePosterContent] that have not settled, the
    timers of [handleDownload] that have not fired and the calls of [toPng]
    that have not settled, each download with the selection its closure
    captured (oldest first). *)
Record Desk : Type := mkDesk {
  editor : System num;
  loading : bool;
  aiLoading : bool;
  requests : nat;
  timers : list (option string);
  exports : list (option string)
}.

Definition initialDesk : Desk := mkDesk initialSystem false false 0 [] [].

Inductive HeaderEvent : Type :=
| EnhanceClicked
| EnhanceAnswered (formattedDate enhancedTitle : option string)
| EnhanceFailed
| DownloadClick
| TimerFired (posterMounted : bool)
| ExportSettled (n : nat)
| Elsewhere (ev : Event num).

(** The events of the editor that the header's own actions produce. *)
Definition headerOwned (ev : Event num) : bool :=
  match ev with
  | Enhanced _ _ | DownloadClicked | DownloadSettled _ => true
  | _ => false
  end.

(** [handleAiEnhancement] up to its [await]: whether the request is sent.
    Reading [text] of a missing element throws; before [setAiLoading(true)]
    that leaves the flag alone, after it the [finally] resets the flag in the
    same batch. *)
Definition enhancementSent (d : PosterState.t num) : bool :=
  match PosterState.elements d !! "date" with
  | None => false
  | Some date =>
      if negb (truthy (TextElement.text date))
      then match PosterState.elements d !! "title" with
           | None => false
           | Some title => truthy (TextElement.text title)
           end
      else match PosterState.elements d !! "title" with
           | None => false
           | Some _ => true
           end
  end.

Definition withEditor (k : Desk) (s : System num) : Desk :=
  mkDesk s (loading k) (aiLoading k) (requests k) (timers k) (exports k).

(** One event of the header. A disabled button sends no click; an answer,
    a failure or a settled export without its operation under way does not
    occur. [None]: an updater threw while React applied it. *)
Definition headerStep (k : Desk) (ev : HeaderEvent) : option Desk :=
  match ev with
  | EnhanceClicked =>
      if aiLoading k then Some k
      else if enhancementSent (data (app (editor k)))
      then Some (mkDesk (editor k) (loading k) true (S (requests k))
                        (timers k) (exports k))
      else Some k
  | EnhanceAnswered formattedDate enhancedTitle =>
      match requests k with
      | O => Some k
      | S pending =>
          s ← step (editor k) (Enhanced formattedDate enhancedTitle);
          Some (mkDesk s (loading k) false pending (timers k) (exports k))
      end
  | EnhanceFailed =>
      match requests k with
      | O => Some k
      | S pending =>
          Some (mkDesk (editor k) (loading k) false pending (timers k) (exports k))
      end
  | DownloadClick =>
      if loading k then Some k
      else
        s ← step (editor k) DownloadClicked;
        Some (mkDesk s (loading k) (aiLoading k) (requests k)
                     (timers k ++ [selectedId (app (editor k))]) (exports k))
  | TimerFired posterMounted =>
      match timers k with
      | [] => Some k
      | currentSelection :: later =>
          if posterMounted
          then Some (mkDesk (editor k) true (aiLoading k) (requests k) later
                            (exports k ++ [currentSelection]))
          else Some (mkDesk (editor k) (loading k) (aiLoading k) (requests k)
                            later (exports k))
      end
  | ExportSettled n =>
      match exports k !! n with
      | None => Some k
      | Some currentSelection =>
          s ← step (editor k) (DownloadSettled currentSelection);
          Some (mkDesk s false (aiLoading k) (requests k) (timers k)
                       (delete n (exports k)))
      end
  | Elsewhere ev =>
      if headerOwned ev then Some k
      else s ← step (editor k) ev; Some (withEditor k s)
  end.

Fixpoint headerRun (k : Desk) (evs : list HeaderEvent) : option Desk :=
  match evs with
  | [] => Some k
  | ev :: rest => k' ← headerStep k ev; headerRun k' rest
  end.

(** No download is under way and the button is enabled. *)
Definition downloadsIdle (k : Desk) : Prop :=
  loading k = false ∧ timers k = [] ∧ exports k = [].

End Header.

Arguments Desk : clear implicits.
Arguments HeaderEvent : clear implicits.

(* ===================================================================== *)
(** ** The drag controller, for any arithmetic *)
(* ===================================================================== *)

Section Handlers.
Context {num : Type} {arith : JsNumber num}.
Local Open Scope js_scope.

Implicit Types (st : DragState num) (s : System num) (e : PointerEvent num).
Implicit Types (d : PosterState.t num) (el : TextElement.t num).

Lemma truthy_Some (k : string) : truthy (Some k) = true ↔ k ≠ "".
Proof.
  unfold truthy. rewrite negb_true_iff. split.
  - intros Hk ->. discriminate.
  - intros Hk. apply String.eqb_neq. exact Hk.
Qed.

Lemma later_None_l {A} (b : option A) : TextElement.later None b = b.
Proof. by destruct b. Qed.

Lemma spread_empty el : TextElement.spread TextElement.empty el = el.
Proof.
  destruct el. unfold TextElement.spread. simpl.
  by rewrite !later_None_l.
Qed.

(** A pointer-move past the guard whose dragged element is in the table. *)
Lemma handlePointerMove_dragging d rect e st k el :
  isDragging st = true → draggedId st = Some k → k ≠ "" →
  PosterState.elements d !! k = Some el →
  handlePointerMove d (Some rect) e st =
    let scale := rectWidth rect / num_of_Z 1280 in
    mkOutcome
      (mkDrag true (mkOffset (clientX e) (clientY e)) (Some k))
      [PreventDefault;
       OnUpdatePosition k
         (toNumber (TextElement.x el) + (clientX e - offsetX (dragOffset st)) / scale)
         (toNumber (TextElement.y el) + (clientY e - offsetY (dragOffset st)) / scale)]
      Normal.
Proof.
  intros Hdrag Hid Hk Hel. unfold handlePointerMove.
  rewrite Hdrag, Hid. apply truthy_Some in Hk. rewrite Hk. simpl.
  by rewrite Hel.
Qed.

Lemma handlePointerMove_guard d containerRef e st :
  isDragging st = false ∨ truthy (draggedId st) = false ∨ containerRef = None →
  handlePointerMove d containerRef e st = mkOutcome st [] Normal.
Proof.
  unfold handlePointerMove. intros [-> | [-> | ->]]; simpl.
  - reflexivity.
  - by rewrite orb_true_r.
  - by rewrite orb_true_r.
Qed.

(** The shapes an outcome of [handlePointerMove] can take. *)
Lemma handlePointerMove_cases d containerRef e st :
  handlePointerMove d containerRef e st = mkOutcome st [] Normal
  ∨ handlePointerMove d containerRef e st = mkOutcome st [PreventDefault] TypeError
  ∨ ∃ k el x y,
      draggedId st = Some k ∧ PosterState.elements d !! k = Some el
      ∧ handlePointerMove d containerRef e st =
          mkOutcome (mkDrag (isDragging st) (mkOffset (clientX e) (clientY e))
                            (draggedId st))
                    [PreventDefault; OnUpdatePosition k x y] Normal.
Proof.
  unfold handlePointerMove.
  destruct (negb (isDragging st) || negb (truthy (draggedId st))
            || negb (mounted containerRef)); [by left |].
  destruct (draggedId st) as [k|] eqn:Hid; [| by left].
  destruct containerRef as [rect|]; [| by left].
  destruct (PosterState.elements d !! k) as [el|] eqn:Hel.
  - right; right. by eexists k, el, _, _.
  - right; by left.
Qed.

End Handlers.

(** Case analysis on a pointer-move: it returned at the guard, it threw, or
    it asked for the update [(k, x, y)] of the element [el]. *)
Ltac move_cases d containerRef e st k el x y Hid Hel :=
  destruct (handlePointerMove_cases d containerRef e st)
    as [-> | [-> | (k & el & x & y & Hid & Hel & ->)]].

Section Controller.
Context {num : Type} {arith : JsNumber num}.
Local Open Scope js_scope.

Implicit Types (st : DragState num) (s : System num) (e : PointerEvent num).
Implicit Types (d : PosterState.t num) (el : TextElement.t num).

Lemma moveTo_same el x y :
  TextElement.x el = Some x → TextElement.y el = Some y → moveTo el x y = el.
Proof. destruct el. simpl. by intros -> ->. Qed.

(** A system that is in the middle of a drag has the shape [relocated]. *)
Lemma relocated_self s key el x y :
  isDragging (canvas s) = true → draggedId (canvas s) = Some key →
  PosterState.elements (data (app s)) !! key = Some el →
  TextElement.x el = Some x → TextElement.y el = Some y →
  relocated s key el x y (dragOffset (canvas s)) = s.
Proof.
  intros Hdrag Hid Hel Hx Hy. unfold relocated.
  rewrite (moveTo_same el x y Hx Hy), (insert_id _ _ _ Hel).
  destruct s as [[[bg els] sel] [dr off dragged]]. simpl in *. by subst.
Qed.

(** One move of a drag: the stored position advances by the device delta
    over the scale, the anchor becomes the pointer. *)
Lemma step_relocated s key el x y anchor rect e :
  key ≠ "" →
  step (relocated s key el x y anchor) (PointerMove e (Some rect))
  = Some (relocated s key el
            (x + (clientX e - offsetX anchor) / (rectWidth rect / num_of_Z 1280))
            (y + (clientY e - offsetY anchor) / (rectWidth rect / num_of_Z 1280))
            (mkOffset (clientX e) (clientY e))).
Proof.
  intros Hkey. unfold step.
  rewrite (handlePointerMove_dragging _ rect e _ key (moveTo el x y));
    [| done | done | done | apply lookup_insert_eq].
  unfold afterHandler, relocated. simpl.
  unfold handlePositionUpdate, updateElement. simpl.
  rewrite lookup_insert_eq. simpl.
  by rewrite insert_insert_eq.
Qed.

(** C3. A pointer-move received while no drag is active, or while the
    dragged identifier is unset ([null], or the empty string: what the
    guard's [!draggedId] tests), or while the reference to the surface holds
    nothing, returns at the guard: nothing is called on the event or on the
    host, so no position update is emitted, the handler completes normally,
    and the component state and the whole editor are what they were. *)
Theorem pointer_move_noop s e containerRef :
  isDragging (canvas s) = false
  ∨ truthy (draggedId (canvas s)) = false
  ∨ containerRef = None →
  handlePointerMove (data (app s)) containerRef e (canvas s)
  = mkOutcome (canvas s) [] Normal
  ∧ step s (PointerMove e containerRef) = Some s.
Proof.
  intros Hguard.
  pose proof (handlePointerMove_guard (data (app s)) containerRef e (canvas s)
                Hguard) as Ho.
  split; [exact Ho |].
  unfold step, afterHandler. rewrite Ho. by destruct s.
Qed.

(** C4. While a drag is active, a pointer-up ends it: [handlePointerUp]
    and the listener on [window] both leave the dragging flag cleared and
    the dragged identifier unset, and so does the editor's step for a
    pointer-up anywhere in the document. Neither handler reads the pointer's
    position. *)
Theorem pointer_up_ends_drag s :
  isDragging (canvas s) = true →
  (isDragging (next (handlePointerUp (canvas s))) = false
   ∧ draggedId (next (handlePointerUp (canvas s))) = None)
  ∧ (isDragging (next (handleGlobalUp (canvas s))) = false
     ∧ draggedId (next (handleGlobalUp (canvas s))) = None)
  ∧ ∃ s', step s WindowPointerUp = Some s'
          ∧ isDragging (canvas s') = false ∧ draggedId (canvas s') = None.
Proof.
  intros Hdrag. split_and!; try reflexivity.
  - unfold handleGlobalUp. by rewrite Hdrag.
  - unfold handleGlobalUp. by rewrite Hdrag.
  - eexists. split; [reflexivity |].
    unfold afterHandler, handleGlobalUp. by rewrite Hdrag.
Qed.

(** The moves of a gesture never touch an element other than the dragged
    one, and never change which element is dragged. *)
Lemma moves_keep_others (moves : list (PointerEvent num * option (DOMRect num))) :
  ∀ s, ∃ s',
    run s ((λ m, PointerMove m.1 m.2) <$> moves) = Some s'
    ∧ draggedId (canvas s') = draggedId (canvas s)
    ∧ isDragging (canvas s') = isDragging (canvas s)
    ∧ selectedId (app s') = selectedId (app s)
    ∧ PosterState.backgroundImage (data (app s'))
      = PosterState.backgroundImage (data (app s))
    ∧ ∀ k, draggedId (canvas s) ≠ Some k →
        PosterState.elements (data (app s')) !! k
        = PosterState.elements (data (app s)) !! k.
Proof.
  induction moves as [| [e ref] moves IH]; intros s.
  - exists s. by split_and!.
  - simpl.
    set (s1 := afterHandler s (handlePointerMove (data (app s)) ref e (canvas s))).
    assert (Hs1 : draggedId (canvas s1) = draggedId (canvas s)
                  ∧ isDragging (canvas s1) = isDragging (canvas s)
                  ∧ selectedId (app s1) = selectedId (app s)
                  ∧ PosterState.backgroundImage (data (app s1))
                    = PosterState.backgroundImage (data (app s))
                  ∧ ∀ k, draggedId (canvas s) ≠ Some k →
                      PosterState.elements (data (app s1)) !! k
                      = PosterState.elements (data (app s)) !! k).
    { subst s1. unfold afterHandler.
      move_cases (data (app s)) ref e (canvas s) k' el x y Hk' Hel'; simpl;
        try by split_and!.
      split_and!; try done.
      intros k Hk. apply lookup_insert_ne. congruence. }
    destruct Hs1 as (Hid & Hdr & Hsel & Hbg & Hels).
    destruct (IH s1) as (s' & Hrun & Hid' & Hdr' & Hsel' & Hbg' & Hels').
    exists s'. split_and!.
    + exact Hrun.
    + congruence.
    + congruence.
    + congruence.
    + congruence.
    + intros k Hk. rewrite Hels'; [by apply Hels | congruence].
Qed.

(** The moves of a gesture keep the dragged element in the table and change
    nothing of it but its position. *)
Lemma moves_keep_fields (moves : list (PointerEvent num * option (DOMRect num))) :
  ∀ s key el,
    draggedId (canvas s) = Some key →
    PosterState.elements (data (app s)) !! key = Some el →
    ∃ s' el',
      run s ((λ m, PointerMove m.1 m.2) <$> moves) = Some s'
      ∧ PosterState.elements (data (app s')) !! key = Some el'
      ∧ el' = TextElement.mk (TextElement.id el) (TextElement.label el)
                (TextElement.text el) (TextElement.x el') (TextElement.y el')
                (TextElement.fontSize el) (TextElement.fontFamily el)
                (TextElement.color el) (TextElement.width el).
Proof.
  induction moves as [| [e ref] moves IH]; intros s key el Hid Hel.
  - exists s, el. split_and!; [done | done | by destruct el].
  - simpl.
    set (s1 := afterHandler s (handlePointerMove (data (app s)) ref e (canvas s))).
    assert (Hs1 : draggedId (canvas s1) = Some key
                  ∧ ∃ el1, PosterState.elements (data (app s1)) !! key = Some el1
                      ∧ el1 = TextElement.mk (TextElement.id el) (TextElement.label el)
                                (TextElement.text el) (TextElement.x el1)
                                (TextElement.y el1) (TextElement.fontSize el)
                                (TextElement.fontFamily el) (TextElement.color el)
                                (TextElement.width el)).
    { subst s1. unfold afterHandler.
      move_cases (data (app s)) ref e (canvas s) k' el0 x y Hk' Hel'; simpl.
      - split; [done |]. exists el. split; [done | by destruct el].
      - split; [done |]. exists el. split; [done | by destruct el].
      - split; [done |].
        assert (k' = key) as -> by congruence.
        rewrite Hel in Hel'. injection Hel' as <-.
        eexists. split.
        + unfold handlePositionUpdate, updateElement. simpl.
          apply lookup_insert_eq.
        + rewrite Hel. by destruct el. }
    destruct Hs1 as (Hid1 & el1 & Hel1 & Hfields1).
    destruct (IH s1 key el1 Hid1 Hel1) as (s' & el' & Hrun & Hel' & Hfields').
    exists s', el'. split_and!; [done | done |].
    rewrite Hfields'. rewrite Hfields1. reflexivity.
Qed.

(** C5. A pointer-down on a rendered element, whatever was selected or
    dragged before, stops the event, records the element's key as the
    dragged identifier and the pointer's device position as the anchor,
    marks the drag active and tells the host at once to select that element.
    Through the moves that follow, mounted or not, the drag stays active on
    this element, which stays the selected one; the other elements and the
    background are left as they were, and of this element nothing but the
    position changes. After any such moves a further move over a mounted
    surface (the key being a non-empty string) puts this element at its
    stored position plus the device delta from the anchor over the scale,
    makes the pointer the anchor, and again touches no other element. *)
Theorem pointer_down_starts_drag s key e el :
  PosterState.elements (data (app s)) !! key = Some el →
  ∃ s1,
    step s (PointerDownOn key e) = Some s1
    ∧ effects (handlePointerDown e key (TextElement.x el) (TextElement.y el) (canvas s))
      = [PreventDefault; StopPropagation; OnSelect key]
    ∧ canvas s1 = mkDrag true (mkOffset (clientX e) (clientY e)) (Some key)
    ∧ app s1 = mkApp (data (app s)) (Some key)
    ∧ ∀ moves, ∃ s2 el2,
        run s1 ((λ m, PointerMove m.1 m.2) <$> moves) = Some s2
        ∧ isDragging (canvas s2) = true
        ∧ draggedId (canvas s2) = Some key
        ∧ selectedId (app s2) = Some key
        ∧ PosterState.backgroundImage (data (app s2))
          = PosterState.backgroundImage (data (app s))
        ∧ (∀ k, k ≠ key →
             PosterState.elements (data (app s2)) !! k
             = PosterState.elements (data (app s)) !! k)
        ∧ PosterState.elements (data (app s2)) !! key = Some el2
        ∧ el2 = TextElement.mk (TextElement.id el) (TextElement.label el)
                  (TextElement.text el) (TextElement.x el2) (TextElement.y el2)
                  (TextElement.fontSize el) (TextElement.fontFamily el)
                  (TextElement.color el) (TextElement.width el)
        ∧ (key ≠ "" → ∀ e' rect, ∃ s3,
             let scale := rectWidth rect / num_of_Z 1280 in
             step s2 (PointerMove e' (Some rect)) = Some s3
             ∧ canvas s3
               = mkDrag true (mkOffset (clientX e') (clientY e')) (Some key)
             ∧ selectedId (app s3) = Some key
             ∧ PosterState.backgroundImage (data (app s3))
               = PosterState.backgroundImage (data (app s))
             ∧ PosterState.elements (data (app s3)) !! key
               = Some (TextElement.mk (TextElement.id el) (TextElement.label el)
                         (TextElement.text el)
                         (Some (toNumber (TextElement.x el2)
                                + (clientX e' - offsetX (dragOffset (canvas s2)))
                                  / scale))
                         (Some (toNumber (TextElement.y el2)
                                + (clientY e' - offsetY (dragOffset (canvas s2)))
                                  / scale))
                         (TextElement.fontSize el) (TextElement.fontFamily el)
                         (TextElement.color el) (TextElement.width el))
             ∧ ∀ k, k ≠ key →
                 PosterState.elements (data (app s3)) !! k
                 = PosterState.elements (data (app s)) !! k).
Proof.
  intros Hel.
  set (s1 := afterHandler s (handlePointerDown e key (TextElement.x el)
                               (TextElement.y el) (canvas s))).
  exists s1. split_and!.
  - unfold step. by rewrite Hel.
  - reflexivity.
  - reflexivity.
  - reflexivity.
  - intros moves.
    destruct (moves_keep_others moves s1)
      as (s2 & Hrun & Hid & Hdr & Hsel & Hbg & Hels).
    destruct (moves_keep_fields moves s1 key el eq_refl Hel)
      as (s2' & el2 & Hrun' & Hel2 & Hfields).
    assert (s2' = s2) as -> by congruence.
    assert (Hothers : ∀ k, k ≠ key →
              PosterState.elements (data (app s2)) !! k
              = PosterState.elements (data (app s)) !! k).
    { intros k Hk. rewrite Hels; [done |]. simpl. congruence. }
    exists s2, el2. split_and!; try done.
    intros Hkey e' rect. eexists. simpl.
    unfold step.
    rewrite (handlePointerMove_dragging _ rect e' _ key el2 Hdr Hid Hkey Hel2).
    split; [reflexivity |]. unfold afterHandler. simpl.
    split_and!; try done.
    + unfold handlePositionUpdate, updateElement. simpl.
      rewrite lookup_insert_eq, Hel2. simpl. f_equal.
      rewrite Hfields. reflexivity.
    + intros k Hk. unfold handlePositionUpdate, updateElement. simpl.
      rewrite lookup_insert_ne; [by apply Hothers | done].
Qed.

(** C9. Ending a drag clears the dragging flag and the dragged identifier
    and nothing else: both pointer-up handlers keep the anchor and call
    nothing on the host, so a pointer-up leaves the host's selection and the
    poster as they are. Of the controller's handlers only the pointer-down
    asks for a selection: a move never does. Hence the element a gesture
    was started on is still the selected one after its pointer-up. *)
Theorem pointer_up_keeps_selection s :
  handlePointerUp (canvas s)
  = mkOutcome (mkDrag false (dragOffset (canvas s)) None) [] Normal
  ∧ handleGlobalUp (canvas s)
    = (if isDragging (canvas s)
       then mkOutcome (mkDrag false (dragOffset (canvas s)) None) [] Normal
       else mkOutcome (canvas s) [] Normal)
  ∧ (∃ s', step s WindowPointerUp = Some s' ∧ app s' = app s
           ∧ dragOffset (canvas s') = dragOffset (canvas s))
  ∧ (∀ e containerRef eff,
       eff ∈ effects (handlePointerMove (data (app s)) containerRef e (canvas s)) →
       isSelection eff = false)
  ∧ (∀ key e moves,
       is_Some (PosterState.elements (data (app s)) !! key) →
       ∃ s', run s (PointerDownOn key e
                      :: ((λ m, PointerMove m.1 m.2) <$> moves) ++ [WindowPointerUp])
             = Some s'
             ∧ selectedId (app s') = Some key
             ∧ isDragging (canvas s') = false ∧ draggedId (canvas s') = None).
Proof.
  split_and!.
  - reflexivity.
  - reflexivity.
  - eexists. split; [reflexivity |].
    unfold afterHandler, handleGlobalUp. by destruct (isDragging (canvas s)).
  - intros e containerRef eff.
    move_cases (data (app s)) containerRef e (canvas s) k' el x y Hk' Hel'; simpl.
    + by intros ?%elem_of_nil.
    + by intros ->%list_elem_of_singleton.
    + intros [-> | ->%list_elem_of_singleton]%elem_of_cons; done.
  - intros key e moves [el Hel]. simpl. rewrite Hel. simpl.
    set (s1 := afterHandler s _).
    destruct (moves_keep_others moves s1) as (s2 & Hrun & Hid & Hdr & Hsel & _).
    assert (Hfinal : ∀ l t, run t l = Some s2 →
              run t (l ++ [WindowPointerUp])
              = Some (afterHandler s2 (handleGlobalUp (canvas s2)))).
    { induction l as [| ev l IHl]; intros t; simpl.
      - by intros [= ->].
      - destruct (step t ev) as [t' |]; simpl; [apply IHl | done]. }
    eexists. split; [by apply Hfinal |].
    unfold afterHandler, handleGlobalUp.
    rewrite Hdr. subst s1. simpl. by rewrite Hsel.
Qed.

(** C1. For a pointer-move while a drag is active and the surface is
    mounted: with [scale = rect.width / 1280] from the surface's current
    bounding box and the device delta from the anchor to the pointer divided
    by that scale, the handler asks the host to put the dragged element at
    its stored position plus the logical delta and resets the anchor to the
    pointer; the editor then holds that position for the element. *)
Theorem pointer_move_maps_delta s rect e k el storedX storedY :
  isDragging (canvas s) = true →
  draggedId (canvas s) = Some k →
  k ≠ "" →
  PosterState.elements (data (app s)) !! k = Some el →
  TextElement.x el = Some storedX →
  TextElement.y el = Some storedY →
  let scale := rectWidth rect / num_of_Z 1280 in
  let deltaLogicalX := (clientX e - offsetX (dragOffset (canvas s))) / scale in
  let deltaLogicalY := (clientY e - offsetY (dragOffset (canvas s))) / scale in
  handlePointerMove (data (app s)) (Some rect) e (canvas s)
  = mkOutcome
      (mkDrag true (mkOffset (clientX e) (clientY e)) (Some k))
      [PreventDefault;
       OnUpdatePosition k (storedX + deltaLogicalX) (storedY + deltaLogicalY)]
      Normal
  ∧ step s (PointerMove e (Some rect))
    = Some (mkSystem
              (mkApp (handlePositionUpdate k (storedX + deltaLogicalX)
                        (storedY + deltaLogicalY) (data (app s)))
                     (selectedId (app s)))
              (mkDrag true (mkOffset (clientX e) (clientY e)) (Some k))).
Proof.
  intros Hdrag Hid Hk Hel Hx Hy scale deltaLogicalX deltaLogicalY.
  assert (Ho := handlePointerMove_dragging (data (app s)) rect e (canvas s) k el
                  Hdrag Hid Hk Hel).
  rewrite Hx, Hy in Ho. simpl in Ho.
  split; [exact Ho |].
  unfold step, afterHandler. by rewrite Ho.
Qed.

(** C10. [updateElement] called with an id the element table does not
    have neither fails nor leaves the table as it was: the spread of the
    missing element contributes nothing, so the table gains the key [id],
    bound to an object that has exactly the fields of [updates]. *)
Theorem update_unknown_id_inserts d i (updates : TextElement.t num) :
  PosterState.elements d !! i = None →
  PosterState.elements (updateElement i updates d) !! i = Some updates
  ∧ dom (PosterState.elements (updateElement i updates d))
    = {[i]} ∪ dom (PosterState.elements d)
  ∧ size (PosterState.elements (updateElement i updates d))
    = S (size (PosterState.elements d))
  ∧ (∀ k, k ≠ i →
       PosterState.elements (updateElement i updates d) !! k
       = PosterState.elements d !! k).
Proof.
  intros Hi. unfold updateElement. simpl. rewrite Hi. simpl.
  rewrite spread_empty. split_and!.
  - by rewrite lookup_insert_eq.
  - by rewrite dom_insert_L.
  - by apply map_size_insert_None.
  - intros k Hk. by rewrite lookup_insert_ne.
Qed.

End Controller.

(* ===================================================================== *)
(** ** The scenarios, computed in binary64 *)
(* ===================================================================== *)

Lemma initial_lookup_date {num} {arith : JsNumber num} :
  PosterState.elements (INITIAL_STATE (num := num)) !! "date" = Some date0.
Proof. unfold INITIAL_STATE. simpl. apply lookup_insert_eq. Qed.

Lemma initial_lookup_stray :
  PosterState.elements (INITIAL_STATE (num := float)) !! strayKey = None.
Proof. vm_compute. reflexivity. Qed.

(** Pointer-down on [date] at (100,100), then a move to (110,115), with the
    surface at its native size: [date] goes from (400,120) to (410,135). *)
Example drag_date_native :
  positionOf "date"
    <$> run initialSystem [PointerDownOn "date" pressAt100;
                           PointerMove moveAt110 (Some nativeRect)]
  = Some (Some (Some 410%float, Some 135%float)).
Proof. vm_compute. reflexivity. Qed.

(** The same gesture over the surface rendered 640 pixels wide. *)
Example drag_date_half :
  positionOf "date"
    <$> run initialSystem [PointerDownOn "date" pressAt100;
                           PointerMove moveAt110 (Some halfRect)]
  = Some (Some (Some 420%float, Some 150%float)).
Proof. vm_compute. reflexivity. Qed.

(** The pointer-down of the scenarios leads to [pressedOnDate]. *)
Example press_on_date :
  step initialSystem (PointerDownOn "date" pressAt100) = Some pressedOnDate.
Proof. vm_compute. reflexivity. Qed.

(** What the move of the native-size scenario returns. *)
Lemma native_move_outcome :
  handlePointerMove INITIAL_STATE (Some nativeRect) moveAt110 (canvas pressedOnDate)
  = mkOutcome (mkDrag true (mkOffset 110%float 115%float) (Some "date"))
      [PreventDefault; OnUpdatePosition "date" 410%float 135%float] Normal.
Proof. vm_compute. reflexivity. Qed.

(** Witness for C1, at the two scenarios: element at (400,120), anchor (100,100),
    pointer moved to (110,115); at scale 1 the update asked for is (410,135),
    at scale 0.5 it is (420,150). *)
Lemma pointer_move_maps_delta_scenarios :
  handlePointerMove INITIAL_STATE (Some nativeRect) moveAt110 (canvas pressedOnDate)
  = mkOutcome (mkDrag true (mkOffset 110%float 115%float) (Some "date"))
      [PreventDefault; OnUpdatePosition "date" 410%float 135%float] Normal
  ∧ handlePointerMove INITIAL_STATE (Some halfRect) moveAt110 (canvas pressedOnDate)
    = mkOutcome (mkDrag true (mkOffset 110%float 115%float) (Some "date"))
        [PreventDefault; OnUpdatePosition "date" 420%float 150%float] Normal.
Proof.
  split.
  - exact (proj1 (pointer_move_maps_delta pressedOnDate nativeRect moveAt110
                    "date" date0 400%float 120%float
                    eq_refl eq_refl ltac:(discriminate) initial_lookup_date
                    eq_refl eq_refl)).
  - exact (proj1 (pointer_move_maps_delta pressedOnDate halfRect moveAt110
                    "date" date0 400%float 120%float
                    eq_refl eq_refl ltac:(discriminate) initial_lookup_date
                    eq_refl eq_refl)).
Defined.

(** Witness for C3, at the idle initial editor, at a drag whose identifier is the
    empty string and at an unmounted surface: the move returns at the guard
    and the editor is what it was. *)
Lemma pointer_move_noop_idle :
  (isDragging (canvas (initialSystem (num := float))) = false
   ∧ handlePointerMove INITIAL_STATE (Some nativeRect) moveAt110
       (canvas initialSystem)
     = mkOutcome (canvas initialSystem) [] Normal
   ∧ step initialSystem (PointerMove moveAt110 (Some nativeRect))
     = Some initialSystem)
  ∧ step (mkSystem initialApp (mkDrag true (mkOffset 100%float 100%float) (Some "")))
         (PointerMove moveAt110 (Some nativeRect))
    = Some (mkSystem initialApp (mkDrag true (mkOffset 100%float 100%float) (Some "")))
  ∧ step pressedOnDate (PointerMove moveAt110 None) = Some pressedOnDate.
Proof.
  split_and!.
  - reflexivity.
  - exact (proj1 (pointer_move_noop initialSystem moveAt110 (Some nativeRect)
                    (or_introl eq_refl))).
  - exact (proj2 (pointer_move_noop initialSystem moveAt110 (Some nativeRect)
                    (or_introl eq_refl))).
  - exact (proj2 (pointer_move_noop
                    (mkSystem initialApp
                       (mkDrag true (mkOffset 100%float 100%float) (Some "")))
                    moveAt110 (Some nativeRect)
                    (or_intror (or_introl eq_refl)))).
  - exact (proj2 (pointer_move_noop pressedOnDate moveAt110 None
                    (or_intror (or_intror eq_refl)))).
Defined.

(** Witness for C4, at the drag on [date]. *)
Lemma pointer_up_ends_drag_on_date :
  isDragging (canvas pressedOnDate) = true
  ∧ ∃ s', step pressedOnDate WindowPointerUp = Some s'
          ∧ isDragging (canvas s') = false ∧ draggedId (canvas s') = None.
Proof.
  split; [reflexivity |].
  exact (proj2 (proj2 (pointer_up_ends_drag pressedOnDate eq_refl))).
Defined.

(** Witness for C5, at a pointer-down on [date] in the initial editor, where [title]
    is the selected element: [date] becomes the dragged and selected
    element; over the surface 640 pixels wide a first move to (110,115) keeps
    the drag on [date], and a second one back to (100,115) puts [date] at
    (400,150) and leaves [title] where it was. *)
Lemma pointer_down_starts_drag_on_date :
  ∃ s1, step initialSystem (PointerDownOn "date" pressAt100) = Some s1
        ∧ canvas s1 = mkDrag true (mkOffset 100%float 100%float) (Some "date")
        ∧ app s1 = mkApp INITIAL_STATE (Some "date")
        ∧ ∃ s2, run s1 [PointerMove moveAt110 (Some halfRect)] = Some s2
                ∧ isDragging (canvas s2) = true
                ∧ draggedId (canvas s2) = Some "date"
                ∧ ∃ s3, step s2 (PointerMove moveAt100 (Some halfRect)) = Some s3
                        ∧ canvas s3
                          = mkDrag true (mkOffset 100%float 115%float) (Some "date")
                        ∧ positionOf "date" s3 = Some (Some 400%float, Some 150%float)
                        ∧ PosterState.elements (data (app s3)) !! "title"
                          = PosterState.elements INITIAL_STATE !! "title".
Proof.
  destruct (pointer_down_starts_drag initialSystem "date" pressAt100 date0
              initial_lookup_date)
    as (s1 & Hstep & _ & Hcanvas & Happ & Hmoves).
  exists s1. split_and!; [exact Hstep | exact Hcanvas | exact Happ |].
  destruct (Hmoves [(moveAt110, Some halfRect)])
    as (s2 & el2 & Hrun & Hdr & Hid & _ & _ & _ & Hel2 & _ & Hnext).
  exists s2. split_and!; [exact Hrun | exact Hdr | exact Hid |].
  destruct (Hnext ltac:(discriminate) moveAt100 halfRect)
    as (s3 & Hstep3 & Hcanvas3 & _ & _ & Hdate3 & Hothers3).
  exists s3. split_and!; [exact Hstep3 | exact Hcanvas3 | |].
  - unfold positionOf. rewrite Hdate3. simpl.
    rewrite press_on_date in Hstep. injection Hstep as <-.
    vm_compute in Hrun. injection Hrun as <-.
    vm_compute in Hel2. injection Hel2 as <-.
    vm_compute. reflexivity.
  - apply Hothers3. discriminate.
Defined.

(** Witness for C9, at a whole gesture on [date]: [date] is still selected after the
    pointer-up. *)
Lemma pointer_up_keeps_selection_on_date :
  ∃ s', run initialSystem
          [PointerDownOn "date" pressAt100;
           PointerMove moveAt110 (Some nativeRect);
           WindowPointerUp] = Some s'
        ∧ selectedId (app s') = Some "date"
        ∧ isDragging (canvas s') = false ∧ draggedId (canvas s') = None.
Proof.
  exact (proj2 (proj2 (proj2 (proj2 (pointer_up_keeps_selection initialSystem))))
           "date" pressAt100 [(moveAt110, Some nativeRect)]
           (ex_intro _ date0 initial_lookup_date)).
Defined.

(** Witness for C10, at [INITIAL_STATE] and the key [subtitle]: the table has five keys
    afterwards and [subtitle] is bound to [{ x: 1, y: 2 }] alone. *)
Lemma update_unknown_id_inserts_subtitle :
  PosterState.elements (INITIAL_STATE (num := float)) !! strayKey = None
  ∧ PosterState.elements (updateElement strayKey strayUpdate INITIAL_STATE) !! strayKey
    = Some strayUpdate
  ∧ size (PosterState.elements (updateElement strayKey strayUpdate INITIAL_STATE))
    = S (size (PosterState.elements (INITIAL_STATE (num := float)))).
Proof.
  split; [exact initial_lookup_stray |].
  destruct (update_unknown_id_inserts INITIAL_STATE strayKey strayUpdate
              initial_lookup_stray) as (Hnew & _ & Hsize & _).
  split; [exact Hnew | exact Hsize].
Defined.

(* ===================================================================== *)
(** ** The element table keeps its keys *)
(* ===================================================================== *)

Section Keys.
Context {num : Type} {arith : JsNumber num}.

Implicit Types (s : System num) (d : PosterState.t num) (el : TextElement.t num).

Lemma initialKeys_size : size initialKeys = 4.
Proof. vm_compute. reflexivity. Qed.

Lemma initial_dom :
  dom (PosterState.elements (INITIAL_STATE (num := num))) = initialKeys.
Proof.
  unfold INITIAL_STATE, initialKeys. simpl.
  rewrite !dom_insert_L, dom_empty_L.
  by rewrite (right_id_L ∅ (∪)), !(assoc_L (∪)).
Qed.

Lemma initial_wellKeyed : wellKeyed (INITIAL_STATE (num := num)).
Proof.
  split; [apply initial_dom |].
  intros k el. unfold INITIAL_STATE. simpl.
  repeat (rewrite lookup_insert; case_decide;
          [subst k; by intros [= <-] |]).
  by rewrite lookup_empty.
Qed.

(** An update of an element the table has, that does not touch [id]. *)
Lemma updateElement_wellKeyed d k (updates : TextElement.t num) :
  wellKeyed d →
  is_Some (PosterState.elements d !! k) →
  TextElement.id updates = None →
  wellKeyed (updateElement k updates d).
Proof.
  intros [Hdom Hid] [el Hel] Hupd. split.
  - unfold updateElement. simpl. rewrite dom_insert_L, <- Hdom.
    apply subseteq_union_1_L, singleton_subseteq_l. by eapply elem_of_dom_2.
  - intros k' el'. unfold updateElement. simpl.
    rewrite lookup_insert. case_decide as Hk.
    + subst k'. intros [= <-]. rewrite Hel. simpl. rewrite Hupd. simpl.
      by apply Hid.
    + apply Hid.
Qed.

Lemma handleImageUpload_elements result d :
  PosterState.elements (handleImageUpload result d) = PosterState.elements d.
Proof. unfold handleImageUpload. by destruct (truthy result). Qed.

Lemma removeBackground_elements d :
  PosterState.elements (removeBackground d) = PosterState.elements d.
Proof.
  unfold removeBackground. by destruct (truthy (PosterState.backgroundImage d)).
Qed.

Lemma wellKeyed_elements d d' :
  PosterState.elements d' = PosterState.elements d → wellKeyed d → wellKeyed d'.
Proof. unfold wellKeyed. by intros ->. Qed.

Lemma wellKeyed_has d k : wellKeyed d → k ∈ initialKeys →
  is_Some (PosterState.elements d !! k).
Proof. intros [Hdom _] Hk. apply elem_of_dom. by rewrite Hdom. Qed.

(** On a well-keyed poster the updater of the text enhancement does not
    throw, and keeps the poster well keyed. *)
Lemma applyEnhancement_wellKeyed formattedDate enhancedTitle d :
  wellKeyed d →
  ∃ d', applyEnhancement formattedDate enhancedTitle d = Some d' ∧ wellKeyed d'.
Proof.
  intros Hwk.
  destruct (wellKeyed_has d "date" Hwk) as [eld Hd].
  { unfold initialKeys. rewrite !elem_of_union, !elem_of_singleton. tauto. }
  destruct (wellKeyed_has d "title" Hwk) as [elt Ht].
  { unfold initialKeys. rewrite !elem_of_union, !elem_of_singleton. tauto. }
  unfold applyEnhancement, enhancedText. rewrite Hd, Ht.
  set (dateText := if truthy formattedDate then _ else _).
  set (titleText := if truthy enhancedTitle then _ else _).
  assert (∃ t, dateText = Some t) as [t1 ->]
    by (subst dateText; destruct (truthy formattedDate); eauto).
  assert (∃ t, titleText = Some t) as [t2 ->]
    by (subst titleText; destruct (truthy enhancedTitle); eauto).
  simpl. eexists. split; [reflexivity |].
  pose proof (updateElement_wellKeyed d "date" (TextElement.onlyText t1) Hwk
                (mk_is_Some _ _ Hd) eq_refl) as Hwk1.
  pose proof (updateElement_wellKeyed _ "title" (TextElement.onlyText t2) Hwk1) as Hwk2.
  unfold updateElement in Hwk1, Hwk2. simpl in Hwk2.
  rewrite lookup_insert_ne, Ht, Hd in Hwk2 by done. simpl in Hwk2.
  apply Hwk2; [by eexists | done].
Qed.

Lemma editSelected_wellKeyed (updates : TextElement.t num) (a : AppState num) :
  wellKeyed (data a) → TextElement.id updates = None →
  wellKeyed (data (editSelected updates a)).
Proof.
  intros Hwk Hupd. unfold editSelected, selectedElement.
  destruct (truthy (selectedId a)); [| done].
  destruct (selectedId a) as [k|]; simpl; [| done].
  destruct (PosterState.elements (data a) !! k) as [el|] eqn:Hel; simpl; [| done].
  rewrite (proj2 Hwk k el Hel). simpl.
  apply updateElement_wellKeyed; [done | by eexists | done].
Qed.

(** Serving the calls of a canvas handler keeps the poster well keyed. *)
Lemma afterHandler_pointerMove_wellKeyed s e containerRef :
  wellKeyed (data (app s)) →
  wellKeyed (data (app (afterHandler s
                 (handlePointerMove (data (app s)) containerRef e (canvas s))))).
Proof.
  intros Hwk. unfold afterHandler.
  move_cases (data (app s)) containerRef e (canvas s) k el x y Hk Hel;
    simpl; try done.
  apply updateElement_wellKeyed; [done | by eexists | done].
Qed.

Lemma handleGlobalUp_wellKeyed s :
  wellKeyed (data (app s)) →
  wellKeyed (data (app (afterHandler s (handleGlobalUp (canvas s))))).
Proof.
  unfold afterHandler, handleGlobalUp. by destruct (isDragging (canvas s)).
Qed.

Lemma handleImageUpload_wellKeyed result d :
  wellKeyed d → wellKeyed (handleImageUpload result d).
Proof. apply wellKeyed_elements, handleImageUpload_elements. Qed.

Lemma removeBackground_wellKeyed d :
  wellKeyed d → wellKeyed (removeBackground d).
Proof. apply wellKeyed_elements, removeBackground_elements. Qed.

Create HintDb wellkeyed.
#[local] Hint Resolve editSelected_wellKeyed afterHandler_pointerMove_wellKeyed
  handleGlobalUp_wellKeyed handleImageUpload_wellKeyed
  removeBackground_wellKeyed : wellkeyed.

Lemma step_wellKeyed s ev :
  wellKeyed (data (app s)) →
  ∃ s', step s ev = Some s' ∧ wellKeyed (data (app s')).
Proof.
  intros Hwk.
  destruct ev as [key e | e containerRef | | key | | | | | | | fd et | |]; simpl;
    try (eexists; split; [reflexivity |];
         first [by eauto with wellkeyed | simpl; by eauto with wellkeyed]).
  - (* pointer-down *)
    destruct (PosterState.elements (data (app s)) !! key); eauto.
  - (* a layer button *)
    destruct (PosterState.elements (data (app s)) !! key); eauto.
  - (* the answer of the enhancement service *)
    destruct (applyEnhancement_wellKeyed fd et _ Hwk) as (d' & -> & Hwk').
    simpl. eauto.
Qed.

Lemma run_wellKeyed evs : ∀ s,
  wellKeyed (data (app s)) →
  ∃ s', run s evs = Some s' ∧ wellKeyed (data (app s')).
Proof.
  induction evs as [| ev evs IH]; intros s Hwk; simpl.
  - eauto.
  - destruct (step_wellKeyed s ev Hwk) as (s1 & -> & Hwk1). simpl.
    by apply IH.
Qed.

(** What an event of the canvas can do to the poster: nothing, or what the
    host's own [handlePositionUpdate] does with a request for an element of
    the table. *)
Lemma canvas_event_requests s ev s' :
  canvasEvent ev = true → step s ev = Some s' →
  data (app s') = data (app s)
  ∨ ∃ i x y, is_Some (PosterState.elements (data (app s)) !! i)
             ∧ data (app s') = handlePositionUpdate i x y (data (app s)).
Proof.
  destruct ev; try discriminate; intros _; simpl.
  - destruct (PosterState.elements (data (app s)) !! key); intros [= <-]; by left.
  - intros [= <-]. unfold afterHandler.
    move_cases (data (app s)) containerRef e (canvas s) k el x y Hk Hel;
      simpl; try by left.
    right. exists k, x, y. split; [by eexists | done].
  - intros [= <-]. left. unfold afterHandler, handleGlobalUp.
    by destruct (isDragging (canvas s)).
Qed.

(** C7. The poster state starts with exactly the four elements [date],
    [honorific], [name] and [title]. Whatever events the editor receives, it
    handles all of them and its element table still has exactly these four
    keys: no element is added or removed, only field values change. The
    canvas changes the poster through the host's [handlePositionUpdate]
    alone, on a request for an element of the table. *)
Theorem element_keys_fixed (evs : list (Event num)) :
  dom (PosterState.elements (INITIAL_STATE (num := num))) = initialKeys
  ∧ size (PosterState.elements (INITIAL_STATE (num := num))) = 4
  ∧ (∃ s, run initialSystem evs = Some s
          ∧ dom (PosterState.elements (data (app s))) = initialKeys
          ∧ ∀ ev s', canvasEvent ev = true → step s ev = Some s' →
              data (app s') = data (app s)
              ∨ ∃ i x y, i ∈ initialKeys
                         ∧ data (app s') = handlePositionUpdate i x y (data (app s))).
Proof.
  split_and!.
  - apply initial_dom.
  - rewrite <- size_dom, initial_dom. apply initialKeys_size.
  - destruct (run_wellKeyed evs initialSystem initial_wellKeyed)
      as (s & Hrun & Hdom & Hid).
    exists s. split_and!; [done | done |].
    intros ev s' Hev Hstep.
    destruct (canvas_event_requests s ev s' Hev Hstep)
      as [? | (i & x & y & Hi & ?)]; [by left | right].
    exists i, x, y. split; [| done].
    rewrite <- Hdom. by apply elem_of_dom.
Qed.

End Keys.

(** Witness for C7, at a session that goes through every kind of event. *)
Lemma element_keys_fixed_session :
  ∃ s, run initialSystem session = Some s
       ∧ dom (PosterState.elements (data (app s))) = initialKeys.
Proof.
  destruct (element_keys_fixed session) as (_ & _ & s & Hrun & Hdom & _).
  exists s. split; [exact Hrun | exact Hdom].
Defined.

(* ===================================================================== *)
(** ** A surface of no width, in binary64 *)
(* ===================================================================== *)

Section ZeroWidth.

Implicit Types (a b w : float).

Lemma is_finite_false a : SFnonfinite (Prim2SF a) = true → is_finite a = false.
Proof.
  intros Ha. unfold is_finite, is_nan, is_infinity.
  rewrite !FloatAxioms.eqb_spec, FloatAxioms.abs_spec.
  destruct (Prim2SF a) as [sa | sa | | sa ma ea]; try discriminate.
  - by destruct sa.
  - reflexivity.
Qed.

Lemma is_zero_spec w : is_zero w = true → ∃ sw, Prim2SF w = S754_zero sw.
Proof.
  unfold is_zero. rewrite FloatAxioms.eqb_spec.
  change (Prim2SF zero) with (S754_zero false).
  destruct (Prim2SF w) as [sw | sw | | sw mw ew]; try discriminate.
  - eauto.
  - by destruct sw.
  - by destruct sw.
Qed.

(** [0 / 1280] is a zero. *)
Lemma scale_of_zero_width w :
  is_zero w = true → ∃ sz, Prim2SF (w / num_of_Z 1280)%js = S754_zero sz.
Proof.
  intros [sw Hw]%is_zero_spec.
  change (num_of_Z 1280) with 1280%float. simpl.
  rewrite FloatAxioms.div_spec, Hw. by eexists.
Qed.

(** Dividing by a zero gives an infinity or NaN. *)
Lemma div_zero_nonfinite a b sz :
  Prim2SF b = S754_zero sz → SFnonfinite (Prim2SF (a / b)) = true.
Proof.
  intros Hb. rewrite FloatAxioms.div_spec, Hb.
  by destruct (Prim2SF a).
Qed.

(** Adding an infinity or NaN gives an infinity or NaN. *)
Lemma add_nonfinite a b :
  SFnonfinite (Prim2SF b) = true → SFnonfinite (Prim2SF (a + b)) = true.
Proof.
  intros Hb. rewrite FloatAxioms.add_spec. unfold SF64add, SFadd.
  destruct (Prim2SF b) as [sb | sb | | sb mb eb]; try discriminate.
  - destruct (Prim2SF a) as [sa | sa | | sa ma ea]; try done.
    by destruct sa, sb.
  - by destruct (Prim2SF a).
Qed.

Lemma logical_delta_nonfinite (stored : option float) a w :
  is_zero w = true →
  is_finite (toNumber stored + a / (w / num_of_Z 1280))%js = false.
Proof.
  intros [sz Hz]%scale_of_zero_width.
  apply is_finite_false, add_nonfinite. by eapply div_zero_nonfinite.
Qed.

(** C6. While a drag is active over a mounted surface whose rendered
    width is zero, a pointer-move is neither skipped nor an error and the
    position is not clamped: the handler returns normally, having asked the
    host for a position update whose two coordinates are not finite (an
    infinity or NaN), and the editor stores them. *)
Theorem zero_width_move_not_finite (s : System float) rect e k el :
  isDragging (canvas s) = true →
  draggedId (canvas s) = Some k →
  k ≠ "" →
  PosterState.elements (data (app s)) !! k = Some el →
  is_zero (rectWidth rect) = true →
  ∃ x y,
    handlePointerMove (data (app s)) (Some rect) e (canvas s)
    = mkOutcome (mkDrag true (mkOffset (clientX e) (clientY e)) (Some k))
        [PreventDefault; OnUpdatePosition k x y] Normal
    ∧ is_finite x = false ∧ is_finite y = false
    ∧ ∃ s', step s (PointerMove e (Some rect)) = Some s'
            ∧ positionOf k s' = Some (Some x, Some y).
Proof.
  intros Hdrag Hid Hk Hel Hw.
  pose proof (handlePointerMove_dragging (data (app s)) rect e (canvas s) k el
                Hdrag Hid Hk Hel) as Ho.
  simpl in Ho. eexists _, _. split_and!.
  - exact Ho.
  - by apply logical_delta_nonfinite.
  - by apply logical_delta_nonfinite.
  - eexists. split.
    + unfold step. rewrite Ho. reflexivity.
    + unfold positionOf, afterHandler. simpl. rewrite Hel. simpl.
      by rewrite lookup_insert_eq.
Qed.

End ZeroWidth.

(** With the surface collapsed, the move of the scenarios sends [date] to
    (+infinity, +infinity). *)
Example collapsed_move_infinite :
  positionOf "date" <$> step pressedOnDate (PointerMove moveAt110 (Some collapsedRect))
  = Some (Some (Some infinity, Some infinity)).
Proof. vm_compute. reflexivity. Qed.

(** With the pointer held still horizontally, the abscissa asked for is
    NaN. *)
Example collapsed_still_nan :
  (λ o, match effects o with
        | [PreventDefault; OnUpdatePosition _ x y] => is_nan x && is_infinity y
        | _ => false
        end)
    (handlePointerMove INITIAL_STATE (Some collapsedRect) moveAt100
       (canvas pressedOnDate))
  = true.
Proof. vm_compute. reflexivity. Qed.

(** Witness for C6, at the drag on [date] over the collapsed surface. *)
Lemma zero_width_move_not_finite_on_date :
  is_zero (rectWidth collapsedRect) = true
  ∧ ∃ x y,
      effects (handlePointerMove INITIAL_STATE (Some collapsedRect) moveAt110
                 (canvas pressedOnDate))
      = [PreventDefault; OnUpdatePosition "date" x y]
      ∧ is_finite x = false ∧ is_finite y = false.
Proof.
  split; [reflexivity |].
  destruct (zero_width_move_not_finite pressedOnDate collapsedRect moveAt110
              "date" date0 eq_refl eq_refl ltac:(discriminate)
              initial_lookup_date eq_refl)
    as (x & y & Ho & Hx & Hy & _).
  exists x, y. split; [| split; [exact Hx | exact Hy]].
  exact (f_equal effects Ho).
Defined.

(* ===================================================================== *)
(** ** The moves of a gesture accumulate *)
(* ===================================================================== *)

Section Gestures.
Context {num : Type} {arith : JsNumber num}.
Local Open Scope js_scope.

Implicit Types (s : System num) (el : TextElement.t num) (e : PointerEvent num).
Implicit Types (t : Track num) (es : list (PointerEvent num)).

Lemma positionOf_relocated s key el x y anchor :
  positionOf key (relocated s key el x y anchor) = Some (Some x, Some y).
Proof.
  unfold positionOf, relocated. simpl. by rewrite lookup_insert_eq.
Qed.

(** The moves of a drag over a surface that keeps its bounding box. *)
Lemma run_movesOver rect s key el es : ∀ x y anchor,
  key ≠ "" →
  run (relocated s key el x y anchor) (movesOver rect es)
  = Some (relocated s key el
            (trackX (accumulate rect (mkTrack x y anchor) es))
            (trackY (accumulate rect (mkTrack x y anchor) es))
            (trackAnchor (accumulate rect (mkTrack x y anchor) es))).
Proof.
  induction es as [| e es IH]; intros x y anchor Hkey.
  - reflexivity.
  - change (movesOver rect (e :: es))
      with (PointerMove e (Some rect) :: movesOver rect es).
    change (run ?t (?ev :: ?evs)) with (t' ← step t ev; run t' evs).
    rewrite step_relocated by done. simpl.
    by rewrite IH.
Qed.

Lemma accumulate_last rect t es e :
  accumulate rect t (es ++ [e]) = advance rect (accumulate rect t es) e.
Proof. unfold accumulate. by rewrite foldl_app. Qed.


End Gestures.



(* ===================================================================== *)
(** ** The updaters of App.tsx compose *)
(* ===================================================================== *)

Section Updaters.
Context {num : Type} {arith : JsNumber num}.

Implicit Types (d : PosterState.t num) (el u v : TextElement.t num).
Implicit Types (a : AppState num) (st : DragState num).

Lemma later_assoc {A} (a b c : option A) :
  TextElement.later (TextElement.later a b) c
  = TextElement.later a (TextElement.later b c).
Proof. by destruct c, b. Qed.

Lemma later_idem {A} (a : option A) : TextElement.later a a = a.
Proof. by destruct a. Qed.

Lemma spread_assoc el u v :
  TextElement.spread (TextElement.spread el u) v
  = TextElement.spread el (TextElement.spread u v).
Proof. unfold TextElement.spread. simpl. by rewrite !later_assoc. Qed.

Lemma spread_idem u : TextElement.spread u u = u.
Proof. destruct u. unfold TextElement.spread. simpl. by rewrite !later_idem. Qed.

Lemma updateElement_twice d i u v :
  updateElement i v (updateElement i u d)
  = updateElement i (TextElement.spread u v) d.
Proof.
  unfold updateElement. simpl.
  rewrite lookup_insert_eq, insert_insert_eq.
  change (TextElement.ofLookup (Some ?e)) with e.
  by rewrite spread_assoc.
Qed.

(** X1. Two updates of the same element in a row are one update with the
    two objects merged, the later one winning field by field; in particular
    an update applied twice is the update applied once. *)
Theorem updateElement_merges d i u v :
  updateElement i v (updateElement i u d)
  = updateElement i (TextElement.spread u v) d
  ∧ updateElement i u (updateElement i u d) = updateElement i u d.
Proof.
  split; [apply updateElement_twice |].
  by rewrite updateElement_twice, spread_idem.
Qed.

(** X2. Updates of two different elements commute. *)
Theorem updateElement_commutes d i j u v :
  i ≠ j →
  updateElement i u (updateElement j v d) = updateElement j v (updateElement i u d).
Proof.
  intros Hij. unfold updateElement. simpl.
  rewrite !lookup_insert_ne by done.
  f_equal. by apply insert_insert_ne.
Qed.

Lemma handlePositionUpdate_twice d i x1 y1 x2 y2 :
  handlePositionUpdate i x2 y2 (handlePositionUpdate i x1 y1 d)
  = handlePositionUpdate i x2 y2 d.
Proof. unfold handlePositionUpdate. by rewrite updateElement_twice. Qed.

(** X3. Two pointer moves handled by the closures of one render (the same
    component state and the same poster, React not having rendered in
    between) and served in order leave the poster exactly where the second
    move alone leaves it: a position update is absolute, so the later one
    overwrites the earlier one and no displacement is counted twice. *)
Theorem moves_of_one_render a st rect1 rect2 e1 e2 :
  foldl hostCall a
    (effects (handlePointerMove (data a) (Some rect1) e1 st)
     ++ effects (handlePointerMove (data a) (Some rect2) e2 st))
  = foldl hostCall a (effects (handlePointerMove (data a) (Some rect2) e2 st)).
Proof.
  unfold handlePointerMove. simpl. rewrite !orb_false_r.
  destruct (negb (isDragging st) || negb (truthy (draggedId st))); [done |].
  destruct (draggedId st) as [k |]; [| done].
  destruct (PosterState.elements (data a) !! k) as [el |]; [| done].
  simpl. by rewrite handlePositionUpdate_twice.
Qed.

(** X4. Loading a background image and deleting it touch the background
    only; loading an image and then deleting it leaves the poster with no
    background and the elements it had; deleting twice is deleting once; a
    load that produced nothing changes nothing. *)
Theorem background_round_trip d (result : option string) :
  PosterState.elements (handleImageUpload result d) = PosterState.elements d
  ∧ PosterState.elements (removeBackground d) = PosterState.elements d
  ∧ (truthy result = true →
     removeBackground (handleImageUpload result d)
     = PosterState.mk None (PosterState.elements d))
  ∧ removeBackground (removeBackground d) = removeBackground d
  ∧ (truthy result = false → handleImageUpload result d = d).
Proof.
  split_and!.
  - unfold handleImageUpload. by destruct (truthy result).
  - unfold removeBackground. by destruct (truthy _).
  - intros Hr. unfold handleImageUpload. rewrite Hr.
    unfold removeBackground. simpl. by rewrite Hr.
  - unfold removeBackground.
    destruct (truthy (PosterState.backgroundImage d)) eqn:Hbg; simpl.
    + reflexivity.
    + by rewrite Hbg.
  - intros Hr. unfold handleImageUpload. by rewrite Hr.
Qed.

End Updaters.

(** Witness for X2, at the initial poster: moving [date] and recolouring
    [title] in either order. *)
Lemma updateElement_commutes_initial :
  updateElement "date" strayUpdate
    (updateElement "title" (TextElement.onlyColor "#000000") INITIAL_STATE)
  = updateElement "title" (TextElement.onlyColor "#000000")
      (updateElement "date" strayUpdate INITIAL_STATE).
Proof.
  exact (updateElement_commutes INITIAL_STATE "date" "title" strayUpdate
           (TextElement.onlyColor "#000000") ltac:(discriminate)).
Defined.

(** Witness for X4, at the initial poster and a data URL. *)
Lemma background_round_trip_initial :
  removeBackground
    (handleImageUpload (Some "data:image/png;base64,") (INITIAL_STATE (num := float)))
  = PosterState.mk None (PosterState.elements INITIAL_STATE).
Proof.
  exact (proj1 (proj2 (proj2
           (background_round_trip INITIAL_STATE (Some "data:image/png;base64,"))))
           eq_refl).
Defined.

(* ===================================================================== *)
(** ** The text enhancement and the properties editor *)
(* ===================================================================== *)

Section Editing.
Context {num : Type} {arith : JsNumber num}.

Implicit Types (s : System num) (d : PosterState.t num) (el u : TextElement.t num).
Implicit Types (fd et : option string).

Lemma truthy_is_Some (o : option string) : truthy o = true → is_Some o.
Proof. destruct o; [by eexists | discriminate]. Qed.

Lemma later_enhanced (old fresh : option string) :
  TextElement.later old (if truthy fresh then fresh else old)
  = if truthy fresh then fresh else old.
Proof.
  destruct (truthy fresh) eqn:Hf.
  - by destruct (truthy_is_Some fresh Hf) as [t ->].
  - apply later_idem.
Qed.

(** What the enhancement does to an element: a new text if the service
    gave one, nothing otherwise. *)
Lemma spread_enhanced el fresh :
  TextElement.spread el
    (TextElement.onlyText (if truthy fresh then fresh else TextElement.text el))
  = TextElement.mk (TextElement.id el) (TextElement.label el)
      (if truthy fresh then fresh else TextElement.text el)
      (TextElement.x el) (TextElement.y el) (TextElement.fontSize el)
      (TextElement.fontFamily el) (TextElement.color el) (TextElement.width el).
Proof.
  unfold TextElement.spread. simpl. by rewrite later_enhanced.
Qed.

Lemma applyEnhancement_present fd et d eld elt :
  PosterState.elements d !! "date" = Some eld →
  PosterState.elements d !! "title" = Some elt →
  applyEnhancement fd et d
  = Some (PosterState.mk (PosterState.backgroundImage d)
            (<["title" := TextElement.spread elt
                 (TextElement.onlyText
                    (if truthy et then et else TextElement.text elt))]>
               (<["date" := TextElement.spread eld
                    (TextElement.onlyText
                       (if truthy fd then fd else TextElement.text eld))]>
                  (PosterState.elements d)))).
Proof.
  intros Hd Ht. unfold applyEnhancement, enhancedText. rewrite Hd, Ht. simpl.
  by destruct (truthy fd), (truthy et).
Qed.

(** X5. On a poster that has [date] and [title], the updater of the text
    enhancement does not throw and changes two texts at most: [date] and
    [title] get the text the service returned when that text is non-empty
    and keep theirs otherwise, every other field of theirs, every other
    element, the keys and the background stay as they were. An answer with
    two empty texts leaves the poster as it was. *)
Theorem enhancement_changes_text_only fd et d eld elt :
  PosterState.elements d !! "date" = Some eld →
  PosterState.elements d !! "title" = Some elt →
  ∃ d',
    applyEnhancement fd et d = Some d'
    ∧ PosterState.backgroundImage d' = PosterState.backgroundImage d
    ∧ dom (PosterState.elements d') = dom (PosterState.elements d)
    ∧ PosterState.elements d' !! "date"
      = Some (TextElement.mk (TextElement.id eld) (TextElement.label eld)
                (if truthy fd then fd else TextElement.text eld)
                (TextElement.x eld) (TextElement.y eld) (TextElement.fontSize eld)
                (TextElement.fontFamily eld) (TextElement.color eld)
                (TextElement.width eld))
    ∧ PosterState.elements d' !! "title"
      = Some (TextElement.mk (TextElement.id elt) (TextElement.label elt)
                (if truthy et then et else TextElement.text elt)
                (TextElement.x elt) (TextElement.y elt) (TextElement.fontSize elt)
                (TextElement.fontFamily elt) (TextElement.color elt)
                (TextElement.width elt))
    ∧ (∀ k, k ≠ "date" → k ≠ "title" →
         PosterState.elements d' !! k = PosterState.elements d !! k)
    ∧ (truthy fd = false → truthy et = false → d' = d).
Proof.
  intros Hd Ht. eexists. split; [by apply applyEnhancement_present |].
  simpl. split_and!.
  - reflexivity.
  - rewrite !dom_insert_L.
    apply elem_of_dom_2 in Hd. apply elem_of_dom_2 in Ht.
    rewrite (subseteq_union_1_L {["date"]}) by by apply singleton_subseteq_l.
    by rewrite (subseteq_union_1_L {["title"]}) by by apply singleton_subseteq_l.
  - rewrite lookup_insert_ne by done.
    by rewrite lookup_insert_eq, spread_enhanced.
  - by rewrite lookup_insert_eq, spread_enhanced.
  - intros k Hkd Hkt. by rewrite !lookup_insert_ne.
  - intros Hfd Het. rewrite !spread_enhanced, Hfd, Het.
    destruct d as [bg els]. simpl in *. f_equal.
    destruct eld, elt. simpl.
    rewrite (insert_id els "date") by done.
    by rewrite (insert_id els "title").
Qed.

(** X6. The updater of the text enhancement throws exactly when it has to
    fall back on the text of an element the poster does not have: the
    service returned no date and there is no [date], or it returned no title
    and there is no [title]. *)
Theorem enhancement_throws_iff fd et d :
  applyEnhancement fd et d = None
  ↔ (truthy fd = false ∧ PosterState.elements d !! "date" = None)
    ∨ (truthy et = false ∧ PosterState.elements d !! "title" = None).
Proof.
  unfold applyEnhancement, enhancedText.
  destruct (truthy fd), (truthy et),
    (PosterState.elements d !! "date"), (PosterState.elements d !! "title");
    simpl; split; try done; try (by intros [[? ?] | [? ?]]);
    intros _; (by left) || (by right).
Qed.

Lemma initialKeys_nonempty k : k ∈ initialKeys → k ≠ "".
Proof.
  unfold initialKeys. rewrite !elem_of_union, !elem_of_singleton.
  intros [[[-> | ->] | ->] | ->]; discriminate.
Qed.

Lemma wellKeyed_selected (a : AppState num) k el :
  wellKeyed (data a) → selectedId a = Some k →
  PosterState.elements (data a) !! k = Some el →
  selectedElement a = Some el ∧ propertyKey (TextElement.id el) = k.
Proof.
  intros [Hdom Hid] Hsel Hel. unfold selectedElement. rewrite Hsel.
  assert (Hk : k ≠ "").
  { apply initialKeys_nonempty. rewrite <- Hdom. by eapply elem_of_dom_2. }
  apply truthy_Some in Hk. rewrite Hk. simpl. split; [done |].
  by rewrite (Hid k el Hel).
Qed.

(** A control of the editor on a well-keyed poster updates the selected
    element, under its own key. *)
Lemma editSelected_wellKeyed_data (a : AppState num) u :
  wellKeyed (data a) →
  editSelected u a = a
  ∨ ∃ k el, PosterState.elements (data a) !! k = Some el
            ∧ editSelected u a = mkApp (updateElement k u (data a)) (selectedId a).
Proof.
  intros Hwk. unfold editSelected.
  destruct (selectedElement a) as [el |] eqn:Hsel; [| by left].
  right. unfold selectedElement in Hsel.
  destruct (truthy (selectedId a)); [| done].
  destruct (selectedId a) as [k |]; [| done]. simpl in Hsel.
  exists k, el. split; [done |].
  by rewrite (proj2 Hwk k el Hsel).
Qed.

(** X7. On a well-keyed poster, choosing a layer in the side bar and then
    using a control of the properties editor (text, font, size or colour)
    merges the control's object into that layer's element and changes
    nothing else: the other elements, the background and the drag state are
    as they were, and the layer is the selected one. While nothing is
    selected ([selectedId] is [null] or the empty string), [selectedElement]
    is [null] and the controls change nothing. *)
Theorem edit_changes_selected_layer s k el ev u :
  wellKeyed (data (app s)) →
  PosterState.elements (data (app s)) !! k = Some el →
  requested ev u →
  canvasEvent ev = false →
  run s [SelectLayer k; ev]
  = Some (mkSystem
            (mkApp (PosterState.mk (PosterState.backgroundImage (data (app s)))
                      (<[k := TextElement.spread el u]>
                         (PosterState.elements (data (app s)))))
                   (Some k))
            (canvas s))
  ∧ (truthy (selectedId (app s)) = false → step s ev = Some s).
Proof.
  intros Hwk Hel Hreq Hcanvas. split.
  - simpl. rewrite Hel. simpl. rewrite (proj2 Hwk k el Hel).
    set (a1 := mkApp (data (app s)) (Some k)).
    destruct (wellKeyed_selected a1 k el Hwk eq_refl Hel) as [Hsel Hkey].
    assert (Hedit : editSelected u a1
                    = mkApp (updateElement k u (data (app s))) (Some k)).
    { unfold editSelected. by rewrite Hsel, Hkey. }
    unfold updateElement in Hedit. rewrite Hel in Hedit. simpl in Hedit.
    destruct Hreq; try discriminate; simpl; fold a1; by rewrite Hedit.
  - intros Hnone.
    destruct Hreq; try discriminate; simpl; unfold editSelected, selectedElement;
      rewrite Hnone; by destruct s as [[] ?].
Qed.

End Editing.

(** Witness for X5, at the initial poster and an answer with a new title
    only. *)
Lemma enhancement_changes_text_only_initial :
  ∃ d', applyEnhancement None (Some "t") (INITIAL_STATE (num := float)) = Some d'
        ∧ TextElement.text <$> PosterState.elements d' !! "title" = Some (Some "t")
        ∧ PosterState.elements d' !! "date" = Some date0.
Proof.
  destruct (enhancement_changes_text_only None (Some "t")
              (INITIAL_STATE (num := float)) date0 title0
              initial_lookup_date ltac:(vm_compute; reflexivity))
    as (d' & Hd' & _ & _ & Hdate & Htitle & _).
  exists d'. split; [exact Hd' |]. split.
  - rewrite Htitle. reflexivity.
  - rewrite Hdate. reflexivity.
Defined.

(** Witness for X7, at the initial editor: choosing [name] and typing. *)
Lemma edit_changes_selected_layer_name :
  TextElement.text
    <$> (run (initialSystem (num := float)) [SelectLayer "name"; EditText "x"]
           ≫= λ s, PosterState.elements (data (app s)) !! "name")
  = Some (Some "x").
Proof.
  rewrite (proj1 (edit_changes_selected_layer (num := float) initialSystem
                    "name" name0 (EditText "x") _ initial_wellKeyed
                    ltac:(vm_compute; reflexivity) (requested_text "x") eq_refl)).
  simpl. by rewrite lookup_insert_eq.
Defined.

(* ===================================================================== *)
(** ** What every run of the editor keeps *)
(* ===================================================================== *)

Section Runs.
Context {num : Type} {arith : JsNumber num}.

Implicit Types (s : System num) (d : PosterState.t num) (el u : TextElement.t num).
Implicit Types (ev : Event num) (evs : list (Event num)).

(** Induction over a run from a well-keyed editor: a property that every
    step keeps for the events of [Q] holds at the end, and the run does not
    fail. *)
Lemma run_keeps (P : System num → Prop) (Q : Event num → Prop) :
  (∀ s ev s', wellKeyed (data (app s)) → P s → Q ev → step s ev = Some s' → P s') →
  ∀ evs s, wellKeyed (data (app s)) → P s → Forall Q evs →
    ∃ s', run s evs = Some s' ∧ wellKeyed (data (app s')) ∧ P s'.
Proof.
  intros Hstep. induction evs as [| ev evs IH]; intros s Hwk HP HQ; simpl.
  - eauto.
  - apply Forall_cons in HQ as [Hev Hevs].
    destruct (step_wellKeyed s ev Hwk) as (s1 & Hs1 & Hwk1).
    rewrite Hs1. simpl. apply IH; eauto.
Qed.

(** How one step changes the element table of a well-keyed editor: not at
    all, by one object merged into an element, or by the two texts of the
    enhancement. *)
Lemma step_elements s ev s' :
  wellKeyed (data (app s)) → step s ev = Some s' →
  PosterState.elements (data (app s')) = PosterState.elements (data (app s))
  ∨ (∃ k el u,
       PosterState.elements (data (app s)) !! k = Some el ∧ requested ev u
       ∧ PosterState.elements (data (app s'))
         = <[k := TextElement.spread el u]> (PosterState.elements (data (app s))))
  ∨ (∃ fd et eld elt,
       PosterState.elements (data (app s)) !! "date" = Some eld
       ∧ PosterState.elements (data (app s)) !! "title" = Some elt
       ∧ PosterState.elements (data (app s'))
         = <["title" := TextElement.spread elt
              (TextElement.onlyText (if truthy et then et else TextElement.text elt))]>
             (<["date" := TextElement.spread eld
                 (TextElement.onlyText (if truthy fd then fd else TextElement.text eld))]>
                (PosterState.elements (data (app s))))).
Proof.
  intros Hwk.
  assert (Hedit : ∀ u, requested ev u → ∀ a',
            a' = editSelected u (app s) →
            PosterState.elements (data a') = PosterState.elements (data (app s))
            ∨ ∃ k el u,
                PosterState.elements (data (app s)) !! k = Some el ∧ requested ev u
                ∧ PosterState.elements (data a')
                  = <[k := TextElement.spread el u]>
                      (PosterState.elements (data (app s)))).
  { intros u Hu a' ->.
    destruct (editSelected_wellKeyed_data (app s) u Hwk)
      as [-> | (k & el & Hel & ->)]; [by left | right].
    exists k, el, u. split_and!; [done | done |].
    unfold updateElement. simpl. by rewrite Hel. }
  destruct ev as [key e | e containerRef | | key | v | v | v | c | r | | fd et | | cs];
    simpl.
  - destruct (PosterState.elements (data (app s)) !! key);
      intros [= <-]; by left.
  - intros [= <-]. unfold afterHandler.
    move_cases (data (app s)) containerRef e (canvas s) k el x y Hk Hel; simpl;
      try by left.
    right; left. exists k, el, (TextElement.position x y).
    split_and!; [done | constructor |]. by rewrite Hel.
  - intros [= <-]. left. unfold afterHandler, handleGlobalUp.
    by destruct (isDragging (canvas s)).
  - destruct (PosterState.elements (data (app s)) !! key);
      intros [= <-]; by left.
  - intros [= <-]. simpl.
    destruct (Hedit _ (requested_text v) _ eq_refl) as [? | ?];
      [by left | by right; left].
  - intros [= <-]. simpl.
    destruct (Hedit _ (requested_fontFamily v) _ eq_refl) as [? | ?];
      [by left | by right; left].
  - intros [= <-]. simpl.
    destruct (Hedit _ (requested_fontSize v) _ eq_refl) as [? | ?];
      [by left | by right; left].
  - intros [= <-]. simpl.
    destruct (Hedit _ (requested_color c) _ eq_refl) as [? | ?];
      [by left | by right; left].
  - intros [= <-]. left. simpl. unfold handleImageUpload. by destruct (truthy r).
  - intros [= <-]. left. simpl. unfold removeBackground. by destruct (truthy _).
  - destruct (wellKeyed_has _ "date" Hwk) as [eld Hd].
    { unfold initialKeys. rewrite !elem_of_union, !elem_of_singleton. tauto. }
    destruct (wellKeyed_has _ "title" Hwk) as [elt Ht].
    { unfold initialKeys. rewrite !elem_of_union, !elem_of_singleton. tauto. }
    rewrite (applyEnhancement_present fd et _ eld elt Hd Ht). simpl.
    intros [= <-]. right; right. by exists fd, et, eld, elt.
  - intros [= <-]. by left.
  - intros [= <-]. by left.
Qed.

Lemma step_dragCoherent s ev s' :
  wellKeyed (data (app s)) → dragCoherent s → step s ev = Some s' →
  dragCoherent s'.
Proof.
  intros Hwk Hco.
  destruct ev as [key e | e containerRef | | key | v | v | v | c | r | | fd et | | cs];
    simpl.
  - destruct (PosterState.elements (data (app s)) !! key) as [el |] eqn:Hel;
      intros [= <-]; [| done].
    unfold dragCoherent. simpl. rewrite <- (proj1 Hwk). by eapply elem_of_dom_2.
  - intros [= <-]. unfold dragCoherent, afterHandler in *.
    move_cases (data (app s)) containerRef e (canvas s) k el x y Hk Hel;
      exact Hco.
  - intros [= <-]. unfold dragCoherent in *. unfold afterHandler, handleGlobalUp.
    destruct (isDragging (canvas s)) eqn:Hdrag; simpl; [done |].
    rewrite Hdrag. exact Hco.
  - destruct (PosterState.elements (data (app s)) !! key); by intros [= <-].
  - by intros [= <-].
  - by intros [= <-].
  - by intros [= <-].
  - by intros [= <-].
  - by intros [= <-].
  - by intros [= <-].
  - destruct (applyEnhancement fd et (data (app s))); [| done]. by intros [= <-].
  - by intros [= <-].
  - by intros [= <-].
Qed.

(** X8. In every state the editor can reach from its initial state, the
    dragging flag and the dragged identifier agree (a drag is active exactly
    when an identifier is set) and the identifier names one of the four
    elements; so there [handlePointerMove] never stops at [currentEl.x]:
    whatever the event and the surface, it completes normally. *)
Theorem drag_state_coherent evs :
  ∃ s, run initialSystem evs = Some s
       ∧ dragCoherent s
       ∧ ∀ e containerRef,
           completion (handlePointerMove (data (app s)) containerRef e (canvas s))
           = Normal.
Proof.
  destruct (run_keeps dragCoherent (λ _, True)
              (λ s ev s' Hwk Hco _, step_dragCoherent s ev s' Hwk Hco)
              evs initialSystem initial_wellKeyed I)
    as (s & Hrun & Hwk & Hco).
  { by apply Forall_forall. }
  exists s. split_and!; [done | done |].
  intros e containerRef. unfold handlePointerMove. unfold dragCoherent in Hco.
  destruct (isDragging (canvas s)); simpl; [| done].
  destruct (draggedId (canvas s)) as [k |]; [| done].
  (* past the guard the dragged element is in the table *)
  destruct (wellKeyed_has _ k Hwk Hco) as [el Hel]. rewrite Hel.
  by destruct (negb (truthy (Some k)) || negb (mounted containerRef)),
       containerRef.
Qed.

Lemma sameShape_spread el0 el ev u :
  sameShape el0 el → requested ev u → sameShape el0 (TextElement.spread el u).
Proof.
  intros (Hid & Hlabel & Hwidth & Ht & Hx & Hy & Hs & Hf & Hc) Hreq.
  destruct Hreq; unfold sameShape; simpl; split_and!; done || by eexists.
Qed.

Lemma sameShape_enhanced el0 el fresh :
  sameShape el0 el →
  sameShape el0 (TextElement.spread el
                   (TextElement.onlyText
                      (if truthy fresh then fresh else TextElement.text el))).
Proof.
  intros (Hid & Hlabel & Hwidth & Ht & Hx & Hy & Hs & Hf & Hc).
  rewrite spread_enhanced. unfold sameShape. simpl. split_and!; try done.
  destruct (truthy fresh) eqn:Hfresh; [by apply truthy_is_Some | done].
Qed.

Lemma step_shaped s ev s' :
  wellKeyed (data (app s)) → shaped (data (app s)) → step s ev = Some s' →
  shaped (data (app s')).
Proof.
  intros Hwk Hsh Hstep.
  destruct (step_elements s ev s' Hwk Hstep)
    as [Hsame | [(k & el & u & Hel & Hreq & Hels)
                | (fd & et & eld & elt & Hd & Ht & Hels)]];
    intros j el0 Hj; destruct (Hsh j el0 Hj) as (elj & Helj & Hshape).
  - exists elj. by rewrite Hsame.
  - rewrite Hels, lookup_insert. case_decide as Hjk.
    + subst j. rewrite Hel in Helj. injection Helj as ->.
      eexists. split; [done |]. by eapply sameShape_spread.
    + by exists elj.
  - rewrite Hels.
    destruct (decide (j = "title")) as [-> |]; [| rewrite lookup_insert_ne by done;
      destruct (decide (j = "date")) as [-> |]; [| rewrite lookup_insert_ne by done]].
    + rewrite lookup_insert_eq, Ht in *. injection Helj as ->.
      eexists. split; [done |]. by apply sameShape_enhanced.
    + rewrite lookup_insert_eq, Hd in *. injection Helj as ->.
      eexists. split; [done |]. by apply sameShape_enhanced.
    + by exists elj.
Qed.

Lemma initial_shaped : shaped (INITIAL_STATE (num := num)).
Proof.
  intros k el0 Hk. exists el0. split; [done |].
  revert Hk. unfold INITIAL_STATE. simpl.
  repeat (rewrite lookup_insert; case_decide;
          [intros [= <-]; unfold sameShape; simpl; split_and!; done || by eexists |]).
  by rewrite lookup_empty.
Qed.

(** X9. In every state the editor can reach from its initial state, each
    of the four elements still has the [id], the [label] and the [width]
    (set or not) that [INITIAL_STATE] gave it, and a value for [text], [x],
    [y], [fontSize], [fontFamily] and [color]: no event removes a field or
    rewrites an identity, and a stored coordinate is never [undefined]. *)
Theorem elements_keep_their_shape evs :
  ∃ s, run initialSystem evs = Some s
       ∧ ∀ k el0, PosterState.elements (INITIAL_STATE (num := num)) !! k = Some el0 →
           ∃ el, PosterState.elements (data (app s)) !! k = Some el
                 ∧ sameShape el0 el.
Proof.
  destruct (run_keeps (λ s, shaped (data (app s))) (λ _, True)
              (λ s ev s' Hwk Hsh _, step_shaped s ev s' Hwk Hsh)
              evs initialSystem initial_wellKeyed initial_shaped)
    as (s & Hrun & _ & Hsh).
  { by apply Forall_forall. }
  by exists s.
Qed.

(** From an idle editor, pointer moves and releases change nothing. *)
Lemma idle_step s ev :
  isDragging (canvas s) = false → pointerNoise ev = true → step s ev = Some s.
Proof.
  intros Hidle. destruct ev; try discriminate; intros _; simpl.
  - rewrite handlePointerMove_guard by by left. by destruct s.
  - unfold handleGlobalUp. rewrite Hidle. by destruct s.
Qed.

(** X10. While no drag is active, no sequence of pointer moves and
    pointer releases, over any surface, changes anything: the editor (poster,
    selection and component state) stays exactly as it is until a
    pointer-down. *)
Theorem idle_ignores_pointer s evs :
  isDragging (canvas s) = false →
  Forall (λ ev, pointerNoise ev = true) evs →
  run s evs = Some s.
Proof.
  intros Hidle. induction 1 as [| ev evs Hev _ IH]; simpl.
  - reflexivity.
  - by rewrite (idle_step s ev Hidle Hev).
Qed.

End Runs.

(** Witness for X10, at the initial editor. *)
Lemma idle_ignores_pointer_initial :
  run initialSystem
    [PointerMove moveAt110 (Some nativeRect); WindowPointerUp;
     PointerMove moveAt100 None]
  = Some initialSystem.
Proof.
  apply (idle_ignores_pointer (num := float) initialSystem); [reflexivity |].
  repeat constructor.
Defined.

(* ===================================================================== *)
(** ** The position updates the controller asks for *)
(* ===================================================================== *)

Section PositionUpdates.
Context {num : Type} {arith : JsNumber num}.

Implicit Types (s : System num) (d : PosterState.t num) (el : TextElement.t num).
Implicit Types (st : DragState num) (o : Outcome num).

(** With a coherent drag state over a well-keyed poster, no handler of the
    controller throws. *)
Lemma coherent_handlers_complete s o :
  wellKeyed (data (app s)) → dragCoherent s →
  handlerOutcome (data (app s)) (canvas s) o → completion o = Normal.
Proof.
  intros Hwk Hco Ho. inversion Ho as [e key cx cy | e containerRef | |]; subst o.
  - reflexivity.
  - unfold handlePointerMove. unfold dragCoherent in Hco.
    destruct (isDragging (canvas s)); simpl; [| done].
    destruct (draggedId (canvas s)) as [k |]; [| done].
    destruct (wellKeyed_has _ k Hwk Hco) as [el Hel]. rewrite Hel.
    by destruct (negb (truthy (Some k)) || negb (mounted containerRef)),
         containerRef.
  - reflexivity.
  - unfold handleGlobalUp. by destruct (isDragging (canvas s)).
Qed.

(** A position update comes from a pointer-move, for the dragged
    identifier. *)
Lemma update_is_for_dragged d st o i x y :
  handlerOutcome d st o → OnUpdatePosition i x y ∈ effects o →
  draggedId st = Some i ∧ isDragging st = true.
Proof.
  intros Ho Hin. inversion Ho as [e key cx cy | e containerRef | |]; subst o.
  - simpl in Hin. rewrite !elem_of_cons, elem_of_nil in Hin.
    by destruct Hin as [? | [? | [? | []]]].
  - revert Hin. unfold handlePointerMove.
    destruct (isDragging st); simpl; [| by intros ?%elem_of_nil].
    destruct (negb (truthy (draggedId st)) || negb (mounted containerRef));
      [by intros ?%elem_of_nil |].
    destruct (draggedId st) as [k |]; [| by intros ?%elem_of_nil].
    destruct containerRef as [rect |]; [| by intros ?%elem_of_nil].
    destruct (PosterState.elements d !! k) as [el |].
    + simpl. intros [? | Hin%list_elem_of_singleton]%elem_of_cons; [done |].
      by injection Hin as -> _ _.
    + by intros ?%list_elem_of_singleton.
  - by apply elem_of_nil in Hin.
  - unfold handleGlobalUp in Hin.
    destruct (isDragging st); by apply elem_of_nil in Hin.
Qed.

(** C8. In every state the editor reaches from its initial one, no handler
    of the drag controller throws, and whenever one asks the host for a
    position update [(i, x, y)], [i] is the dragged identifier and names an
    element of the poster; the host's [handlePositionUpdate] then changes
    that element's [x] and [y] only: its other fields, every other element,
    the keys of the table and the background image are what they were. No
    handler returns a poster: the poster changes through the host's updater
    alone. *)
Theorem position_update_frame (evs : list (Event num)) :
  ∃ s,
    run initialSystem evs = Some s
    ∧ ∀ o, handlerOutcome (data (app s)) (canvas s) o →
        completion o = Normal
        ∧ ∀ i x y, OnUpdatePosition i x y ∈ effects o →
            ∃ el,
              draggedId (canvas s) = Some i
              ∧ PosterState.elements (data (app s)) !! i = Some el
              ∧ PosterState.backgroundImage (handlePositionUpdate i x y (data (app s)))
                = PosterState.backgroundImage (data (app s))
              ∧ PosterState.elements (handlePositionUpdate i x y (data (app s))) !! i
                = Some (TextElement.mk (TextElement.id el) (TextElement.label el)
                          (TextElement.text el) (Some x) (Some y)
                          (TextElement.fontSize el) (TextElement.fontFamily el)
                          (TextElement.color el) (TextElement.width el))
              ∧ (∀ k, k ≠ i →
                   PosterState.elements (handlePositionUpdate i x y (data (app s))) !! k
                   = PosterState.elements (data (app s)) !! k)
              ∧ dom (PosterState.elements (handlePositionUpdate i x y (data (app s))))
                = dom (PosterState.elements (data (app s))).
Proof.
  destruct (run_keeps dragCoherent (λ _, True)
              (λ s ev s' Hwk Hco _, step_dragCoherent s ev s' Hwk Hco)
              evs initialSystem initial_wellKeyed I)
    as (s & Hrun & Hwk & Hco).
  { by apply Forall_forall. }
  exists s. split; [exact Hrun |].
  intros o Ho. split; [by eapply coherent_handlers_complete |].
  intros i x y Hin.
  destruct (update_is_for_dragged _ _ _ _ _ _ Ho Hin) as [Hid Hdrag].
  assert (Hkey : i ∈ initialKeys).
  { unfold dragCoherent in Hco. by rewrite Hdrag, Hid in Hco. }
  destruct (wellKeyed_has _ i Hwk Hkey) as [el Hel].
  exists el. unfold handlePositionUpdate, updateElement. simpl.
  rewrite !Hel. simpl.
  split_and!; try done.
  - by rewrite lookup_insert_eq.
  - intros k Hk. by rewrite lookup_insert_ne.
  - rewrite dom_insert_L. apply subseteq_union_1_L, singleton_subseteq_l.
    by eapply elem_of_dom_2.
Qed.

End PositionUpdates.

(** Witness for C8, at the native-size scenario: after the pointer-down on [date],
    the move to (110,115) asks for [date] at (410,135), and the host's
    update changes the position of [date] alone. *)
Lemma position_update_frame_on_date :
  ∃ el,
    PosterState.elements INITIAL_STATE !! "date" = Some el
    ∧ PosterState.elements
        (handlePositionUpdate "date" 410%float 135%float INITIAL_STATE) !! "date"
      = Some (TextElement.mk (TextElement.id el) (TextElement.label el)
                (TextElement.text el) (Some 410%float) (Some 135%float)
                (TextElement.fontSize el) (TextElement.fontFamily el)
                (TextElement.color el) (TextElement.width el)).
Proof.
  destruct (position_update_frame [PointerDownOn "date" pressAt100])
    as (s & Hrun & Hframe).
  assert (Hpress : run initialSystem [PointerDownOn "date" pressAt100]
                   = Some pressedOnDate) by (vm_compute; reflexivity).
  rewrite Hpress in Hrun. injection Hrun as <-.
  destruct (Hframe _ (outcome_move _ _ moveAt110 (Some nativeRect)))
    as [_ Hupdates].
  destruct (Hupdates "date" 410%float 135%float)
    as (el & _ & Hel & _ & Hmoved & _).
  - change (data (app pressedOnDate)) with (INITIAL_STATE (num := float)).
    rewrite native_move_outcome. simpl.
    apply list_elem_of_further, list_elem_of_here.
  - exists el. split; [exact Hel | exact Hmoved].
Defined.

(* ===================================================================== *)
(** ** Fonts and colours of the rendered elements *)
(* ===================================================================== *)

(** Membership in a list given by its elements. *)
Ltac list_member := apply list_elem_of_In; simpl; tauto.

Section Styles.
Context {num : Type} {arith : JsNumber num}.

Implicit Types (s : System num) (d : PosterState.t num) (el u : TextElement.t num).

Lemma fontValues_cases f :
  f ∈ fontValues →
  f = "Cairo" ∨ f = "Amiri" ∨ f = "Aref Ruqaa" ∨ f = "Lalezar" ∨ f = "Tajawal".
Proof.
  intros Hf%list_elem_of_In. simpl in Hf.
  destruct Hf as [<- | [<- | [<- | [<- | [<- | []]]]]]; tauto.
Qed.

Lemma getFontFamily_offered f :
  f ∈ fontValues → ∃ generic, getFontFamily f = quoted f +:+ ", " +:+ generic.
Proof.
  intros [-> | [-> | [-> | [-> | ->]]]]%fontValues_cases.
  - by exists "sans-serif".
  - by exists "serif".
  - by exists "serif".
  - by exists "cursive".
  - by exists "sans-serif".
Qed.

(** X11. [getFontFamily] gives every font the selector offers a family
    list that starts with that very font, quoted, and gives different fonts
    different lists; any other string, the empty one included, is rendered
    as Cairo. *)
Theorem getFontFamily_names_its_font :
  (∀ f, f ∈ fontValues →
        ∃ generic, getFontFamily f = quoted f +:+ ", " +:+ generic)
  ∧ (∀ f g, f ∈ fontValues → g ∈ fontValues →
            getFontFamily f = getFontFamily g → f = g)
  ∧ (∀ f, f ∉ fontValues → getFontFamily f = quoted "Cairo" +:+ ", sans-serif").
Proof.
  split_and!.
  - apply getFontFamily_offered.
  - intros f g
      [-> | [-> | [-> | [-> | ->]]]]%fontValues_cases
      [-> | [-> | [-> | [-> | ->]]]]%fontValues_cases;
      (reflexivity || (vm_compute; discriminate)).
  - intros f Hf. unfold getFontFamily.
    repeat match goal with
           | |- context [String.eqb f ?name] =>
               destruct (String.eqb_spec f name) as [-> |];
               [exfalso; apply Hf; list_member |]
           end.
    reflexivity.
Qed.

Lemma styled_spread d k el ev u :
  styled d → PosterState.elements d !! k = Some el →
  requested ev u → offered ev →
  ∃ f c, TextElement.fontFamily (TextElement.spread el u) = Some f
         ∧ f ∈ fontValues
         ∧ TextElement.color (TextElement.spread el u) = Some c ∧ c ∈ COLORS.
Proof.
  intros Hst Hel Hreq Hoff.
  destruct (Hst k el Hel) as (f & c & Hf & Hfin & Hc & Hcin).
  destruct Hreq; simpl in *; eauto 10.
Qed.

Lemma step_styled s ev s' :
  wellKeyed (data (app s)) → styled (data (app s)) → offered ev →
  step s ev = Some s' → styled (data (app s')).
Proof.
  intros Hwk Hst Hoff Hstep.
  destruct (step_elements s ev s' Hwk Hstep)
    as [Hsame | [(k & el & u & Hel & Hreq & Hels)
                | (fd & et & eld & elt & Hd & Ht & Hels)]];
    intros j elj.
  - rewrite Hsame. apply Hst.
  - rewrite Hels, lookup_insert. case_decide.
    + intros [= <-]. by eapply styled_spread.
    + apply Hst.
  - rewrite Hels, !spread_enhanced.
    rewrite lookup_insert. case_decide; [intros [= <-]; by apply (Hst _ _ Ht) |].
    rewrite lookup_insert. case_decide; [intros [= <-]; by apply (Hst _ _ Hd) |].
    apply Hst.
Qed.

Lemma initial_styled : styled (INITIAL_STATE (num := num)).
Proof.
  intros k el. unfold INITIAL_STATE. simpl.
  repeat (rewrite lookup_insert; case_decide;
          [intros [= <-]; eexists _, _; simpl;
           split_and!; [reflexivity | list_member | reflexivity | list_member] |]).
  by rewrite lookup_empty.
Qed.

(** X12. Through the rendered controls (the font selector sends a value
    of [FONTS], the colour picker a colour of [COLORS]) the editor only
    reaches states in which every element has a font of [FONTS] and a colour
    of [COLORS]; so the canvas draws every element in the font its
    [fontFamily] names, and the default of [getFontFamily] serves Cairo
    alone. *)
Theorem elements_stay_styled (evs : list (Event num)) :
  Forall offered evs →
  ∃ s, run initialSystem evs = Some s
       ∧ ∀ k el, PosterState.elements (data (app s)) !! k = Some el →
           ∃ f c generic,
             TextElement.fontFamily el = Some f ∧ f ∈ fontValues
             ∧ TextElement.color el = Some c ∧ c ∈ COLORS
             ∧ getFontFamily f = quoted f +:+ ", " +:+ generic.
Proof.
  intros Hevs.
  destruct (run_keeps (λ s, styled (data (app s))) offered
              (λ s ev s' Hwk, step_styled s ev s' Hwk)
              evs initialSystem initial_wellKeyed initial_styled Hevs)
    as (s & Hrun & _ & Hst).
  exists s. split; [done |].
  intros k el Hel. destruct (Hst k el Hel) as (f & c & Hf & Hfin & Hc & Hcin).
  destruct (getFontFamily_offered f Hfin) as [generic Hgen].
  by exists f, c, generic.
Qed.

End Styles.

(** Witness for X12, at a session through every kind of event. *)
Lemma elements_stay_styled_session :
  ∃ s, run initialSystem session = Some s
       ∧ ∀ k el, PosterState.elements (data (app s)) !! k = Some el →
           ∃ f, TextElement.fontFamily el = Some f ∧ f ∈ fontValues.
Proof.
  destruct (elements_stay_styled session) as (s & Hrun & Hst).
  - unfold session. repeat constructor; simpl; list_member.
  - exists s. split; [exact Hrun |].
    intros k el Hel. destruct (Hst k el Hel) as (f & _ & _ & Hf & Hfin & _).
    exists f. split; [exact Hf | exact Hfin].
Defined.

(* ===================================================================== *)
(** ** A coordinate that is not finite stays so, in binary64 *)
(* ===================================================================== *)

Section Stranded.

Implicit Types (s : System float) (a b : float).

Lemma is_finite_true_spec a : SFnonfinite (Prim2SF a) = false → is_finite a = true.
Proof.
  intros Ha. unfold is_finite, is_nan, is_infinity.
  rewrite !FloatAxioms.eqb_spec, FloatAxioms.abs_spec.
  destruct (Prim2SF a) as [sa | sa | | sa ma ea]; try discriminate.
  - reflexivity.
  - unfold SFeqb, SFcompare. simpl.
    rewrite Z.compare_refl, Pos.compare_cont_refl. by destruct sa.
Qed.

Lemma is_finite_false_spec a : is_finite a = false → SFnonfinite (Prim2SF a) = true.
Proof.
  intros Ha. destruct (SFnonfinite (Prim2SF a)) eqn:Hnf; [done |].
  apply is_finite_true_spec in Hnf. congruence.
Qed.

(** An infinity or NaN plus anything is an infinity or NaN. *)
Lemma add_nonfinite_l a b : is_finite a = false → is_finite (a + b) = false.
Proof.
  intros Ha%is_finite_false_spec. apply is_finite_false.
  rewrite FloatAxioms.add_spec. unfold SF64add, SFadd.
  destruct (Prim2SF a) as [sa | sa | | sa ma ea]; try discriminate.
  - destruct (Prim2SF b) as [sb | sb | | sb mb eb]; try done.
    by destruct sa, sb.
  - reflexivity.
Qed.

Lemma lost_insert_other d k j (el : TextElement.t float) :
  j ≠ k → lost k d →
  lost k (PosterState.mk (PosterState.backgroundImage d)
            (<[j := el]> (PosterState.elements d))).
Proof.
  intros Hjk (elk & Hk & Hx). exists elk. simpl.
  by rewrite lookup_insert_ne.
Qed.

Lemma step_lost s ev s' k :
  wellKeyed (data (app s)) → lost k (data (app s)) → step s ev = Some s' →
  lost k (data (app s')).
Proof.
  intros Hwk (elk & Hk & Hx) Hstep. unfold lost.
  assert (Hcase : (∃ e r, ev = PointerMove e r) ∨ ¬ ∃ e r, ev = PointerMove e r).
  { destruct ev; (left; by eauto) || (right; by intros (? & ? & ?)). }
  destruct Hcase as [(e & r & ->) | Hother].
  - (* a move: the new abscissa is the stored one plus a delta *)
    simpl in Hstep. injection Hstep as <-. unfold afterHandler.
    unfold handlePointerMove.
    destruct (negb (isDragging (canvas s)) || negb (truthy (draggedId (canvas s)))
              || negb (mounted r)); simpl; [by eauto |].
    destruct (draggedId (canvas s)) as [j |]; simpl; [| by eauto].
    destruct r as [rect |]; simpl; [| by eauto].
    destruct (PosterState.elements (data (app s)) !! j) as [el |] eqn:Hj;
      simpl; [| by eauto].
    rewrite Hj. simpl. rewrite lookup_insert. case_decide as Hjk; [| by eauto].
    subst j. rewrite Hk in Hj. injection Hj as <-.
    eexists. split; [reflexivity |]. simpl. by apply add_nonfinite_l.
  - (* any other event leaves every abscissa alone *)
    destruct (step_elements s ev s' Hwk Hstep)
      as [Hsame | [(j & el & u & Hel & Hreq & Hels)
                  | (fd & et & eld & elt & Hd & Ht & Hels)]].
    + rewrite Hsame. eauto.
    + rewrite Hels, lookup_insert. case_decide as Hjk; [| by eauto].
      subst j. rewrite Hk in Hel. injection Hel as <-.
      eexists. split; [reflexivity |].
      destruct Hreq; simpl; try done.
      exfalso. apply Hother. eauto.
    + rewrite Hels, !spread_enhanced.
      rewrite lookup_insert. case_decide as Hkt.
      { subst k. rewrite Hk in Ht. injection Ht as <-. eauto. }
      rewrite lookup_insert. case_decide as Hkd.
      { subst k. rewrite Hk in Hd. injection Hd as <-. eauto. }
      eauto.
Qed.

(** X13. In binary64, once the stored abscissa of an element is not a
    finite number (after a move over a surface of no width, say), no
    sequence of events of the editor makes it finite again: a later move
    adds a delta to an infinity or NaN, and no control writes [x]. *)
Theorem non_finite_is_permanent s k (evs : list (Event float)) :
  wellKeyed (data (app s)) →
  lost k (data (app s)) →
  ∃ s', run s evs = Some s'
        ∧ ∃ el, PosterState.elements (data (app s')) !! k = Some el
                ∧ is_finite (toNumber (TextElement.x el)) = false.
Proof.
  intros Hwk Hlost.
  destruct (run_keeps (λ s, lost k (data (app s))) (λ _, True)
              (λ s ev s' Hwk Hl _, step_lost s ev s' k Hwk Hl)
              evs s Hwk Hlost)
    as (s' & Hrun & _ & Hl).
  { by apply Forall_forall. }
  by exists s'.
Qed.

End Stranded.

Lemma strandedDate_lost : lost "date" (data (app strandedDate)).
Proof.
  exists (moveTo date0 infinity infinity). split; vm_compute; reflexivity.
Qed.

Lemma strandedDate_wellKeyed : wellKeyed (data (app strandedDate)).
Proof.
  apply (afterHandler_pointerMove_wellKeyed pressedOnDate), initial_wellKeyed.
Qed.

(** Witness for X13, at [date] stranded by a move over the collapsed
    surface, then dragged over the surface at its native size. *)
Lemma non_finite_is_permanent_date :
  ∃ s', run strandedDate
          [PointerMove pressAt100 (Some nativeRect); WindowPointerUp;
           PointerDownOn "date" pressAt100; PointerMove moveAt110 (Some nativeRect)]
        = Some s'
        ∧ ∃ el, PosterState.elements (data (app s')) !! "date" = Some el
                ∧ is_finite (toNumber (TextElement.x el)) = false.
Proof.
  exact (non_finite_is_permanent strandedDate "date" _
           strandedDate_wellKeyed strandedDate_lost).
Defined.

(* ===================================================================== *)
(** ** The asynchronous actions of the header *)
(* ===================================================================== *)

Section HeaderRuns.
Context {num : Type} {arith : JsNumber num}.

Implicit Types (k : Desk num) (ev : HeaderEvent num).

(** The poster is well keyed and a request is under way exactly when the
    flag of the enhancement is raised. *)
Lemma headerStep_keeps k ev :
  wellKeyed (data (app (editor k))) →
  requests k = (if aiLoading k then 1 else 0) →
  ∃ k', headerStep k ev = Some k'
        ∧ wellKeyed (data (app (editor k')))
        ∧ requests k' = (if aiLoading k' then 1 else 0).
Proof.
  intros Hwk Hreq.
  assert (Hsame : ∃ k', Some k = Some k'
                        ∧ wellKeyed (data (app (editor k')))
                        ∧ requests k' = (if aiLoading k' then 1 else 0))
    by (by exists k).
  destruct ev as [| fd et | | | mounted | n | ev]; unfold headerStep.
  - (* the enhancement button *)
    destruct (aiLoading k) eqn:Hai; [exact Hsame |].
    destruct (enhancementSent _); [| exact Hsame].
    eexists. split; [reflexivity |]. simpl. by rewrite Hreq.
  - (* the answer of the service *)
    destruct (requests k) as [| pending] eqn:Hpending; [exact Hsame |].
    destruct (step_wellKeyed (editor k) (Enhanced fd et) Hwk) as (s & Hs & Hwks).
    rewrite Hs. simpl. eexists. split; [reflexivity |]. simpl.
    split; [exact Hwks |]. destruct (aiLoading k); by inversion Hreq.
  - (* the service failed *)
    destruct (requests k) as [| pending] eqn:Hpending; [exact Hsame |].
    eexists. split; [reflexivity |]. simpl.
    split; [exact Hwk |]. destruct (aiLoading k); by inversion Hreq.
  - (* the download button *)
    destruct (loading k); [exact Hsame |]. simpl.
    eexists. split; [reflexivity |]. by split.
  - (* a timer of a download *)
    destruct (timers k); [exact Hsame |].
    destruct mounted; (eexists; split; [reflexivity |]; by split).
  - (* an export settles *)
    destruct (exports k !! n); [| exact Hsame]. simpl.
    eexists. split; [reflexivity |]. by split.
  - (* an event of the editor *)
    destruct (headerOwned ev); [exact Hsame |].
    destruct (step_wellKeyed (editor k) ev Hwk) as (s & Hs & Hwks).
    rewrite Hs. simpl. eexists. split; [reflexivity |]. by split.
Qed.

(** X15. Whatever the header and the editor receive, at most one call of
    the enhancement service is under way at any time, and one is under way
    exactly when [aiLoading] is set: the button is disabled from the click
    that sends a request until that request settles, by an answer or by a
    failure. *)
Theorem one_enhancement_at_a_time (evs : list (HeaderEvent num)) :
  ∃ k, headerRun initialDesk evs = Some k
       ∧ requests k = (if aiLoading k then 1 else 0).
Proof.
  assert (Hrun : ∀ k, wellKeyed (data (app (editor k))) →
            requests k = (if aiLoading k then 1 else 0) →
            ∃ k', headerRun k evs = Some k'
                  ∧ requests k' = (if aiLoading k' then 1 else 0)).
  { induction evs as [| ev evs IH]; intros k Hwk Hreq; simpl.
    - eauto.
    - destruct (headerStep_keeps k ev Hwk Hreq) as (k1 & -> & Hwk1 & Hreq1).
      simpl. by apply IH. }
  apply Hrun; [apply initial_wellKeyed | reflexivity].
Qed.

(** X16. With no download under way, a download (the click, its timer
    over the mounted poster, its export settling either way) leaves the
    whole desk as it found it: the selection cleared at the click is
    restored. A second click before the first timer fires captures the
    cleared selection: when the two exports settle in the order of the
    clicks the editor ends with nothing selected, in the other order with
    the selection it had. *)
Theorem download_restores_selection k :
  downloadsIdle k →
  headerRun k [DownloadClick; TimerFired true; ExportSettled 0] = Some k
  ∧ headerRun k [DownloadClick; DownloadClick; TimerFired true; TimerFired true;
                 ExportSettled 0; ExportSettled 0]
    = Some (withEditor k (withApp (editor k) (mkApp (data (app (editor k))) None)))
  ∧ headerRun k [DownloadClick; DownloadClick; TimerFired true; TimerFired true;
                 ExportSettled 1; ExportSettled 0]
    = Some k.
Proof.
  intros (Hloading & Htimers & Hexports).
  destruct k as [[[d sel] c] l ai r ts es]. simpl in *. subst l ts es.
  split_and!; reflexivity.
Qed.

End HeaderRuns.

(** Witness for X16, at the initial desk, where [title] is selected. *)
Lemma download_restores_selection_initial :
  selectedId
    <$> (app <$> (editor
           <$> headerRun (initialDesk (num := float))
                 [DownloadClick; DownloadClick; TimerFired true; TimerFired true;
                  ExportSettled 0; ExportSettled 0]))
  = Some None.
Proof.
  rewrite (proj1 (proj2 (download_restores_selection (num := float) initialDesk
                           (conj eq_refl (conj eq_refl eq_refl))))).
  reflexivity.
Defined.
